(** * create_table.py: JSON records to a PostgreSQL table

    A shallow embedding of [src/create_table.py].  The script reads a JSON
    array of records, derives a table layout from the first record,
    recreates the table and inserts every record through a psycopg2 cursor.

    - JSON values are the values [json.load] returns: [None], [bool], [int],
      [float], [str], [list] and [dict].  A [dict] keeps its keys in
      insertion order, so it is an association list; [json.load] never
      produces the same key twice, and nothing below needs that fact.
    - Field names and SQL text are [string]s holding UTF-8; [str.lower] is
      the lower-casing of the interpreter, by code point, with the case
      tables of its Unicode database.
    - The two functions take the dataset as [json.load] returned it;
      opening and parsing the file come before everything modelled here.
    - The calls on the connection and the cursor are recorded, in order, in
      a trace.  A [driver] decides, from the calls made so far, whether the
      next call returns or raises. *)

From Stdlib Require Import List String Ascii Bool Arith ZArith Lia.
From Stdlib Require Import Floats.SpecFloat.
Import ListNotations.

Local Open Scope string_scope.
Local Open Scope list_scope.

(** String concatenation, as done by an f-string. *)
Notation "a +++ b" := (String.append a b) (at level 60, right associativity).

(** ** Text *)

(** Text as Python holds it: a sequence of code points.  A [string] stands
    for the text whose UTF-8 form it is (a lone surrogate takes its
    three-byte form).  The case tables are those of Unicode 14.0.0, the
    version CPython 3.11 ships. *)
Module Unicode.

Local Open Scope N_scope.

(** The code points first, first + step, ..., last have the lower-case
    forms target, target + step, ...; U+0130 is apart, below. *)
Definition lower_ranges : list (N * N * N * N) :=
  [(0x41, 0x5A, 1, 0x61); (0xC0, 0xD6, 1, 0xE0); (0xD8, 0xDE, 1, 0xF8);
   (0x100, 0x12E, 2, 0x101); (0x132, 0x136, 2, 0x133); (0x139, 0x147, 2, 0x13A);
   (0x14A, 0x176, 2, 0x14B); (0x178, 0x178, 1, 0xFF); (0x179, 0x17D, 2, 0x17A);
   (0x181, 0x181, 1, 0x253); (0x182, 0x184, 2, 0x183); (0x186, 0x186, 1, 0x254);
   (0x187, 0x187, 1, 0x188); (0x189, 0x18A, 1, 0x256); (0x18B, 0x18B, 1, 0x18C);
   (0x18E, 0x18E, 1, 0x1DD); (0x18F, 0x18F, 1, 0x259); (0x190, 0x190, 1, 0x25B);
   (0x191, 0x191, 1, 0x192); (0x193, 0x193, 1, 0x260); (0x194, 0x194, 1, 0x263);
   (0x196, 0x196, 1, 0x269); (0x197, 0x197, 1, 0x268); (0x198, 0x198, 1, 0x199);
   (0x19C, 0x19C, 1, 0x26F); (0x19D, 0x19D, 1, 0x272); (0x19F, 0x19F, 1, 0x275);
   (0x1A0, 0x1A4, 2, 0x1A1); (0x1A6, 0x1A6, 1, 0x280); (0x1A7, 0x1A7, 1, 0x1A8);
   (0x1A9, 0x1A9, 1, 0x283); (0x1AC, 0x1AC, 1, 0x1AD); (0x1AE, 0x1AE, 1, 0x288);
   (0x1AF, 0x1AF, 1, 0x1B0); (0x1B1, 0x1B2, 1, 0x28A); (0x1B3, 0x1B5, 2, 0x1B4);
   (0x1B7, 0x1B7, 1, 0x292); (0x1B8, 0x1B8, 1, 0x1B9); (0x1BC, 0x1BC, 1, 0x1BD);
   (0x1C4, 0x1C4, 1, 0x1C6); (0x1C5, 0x1C5, 1, 0x1C6); (0x1C7, 0x1C7, 1, 0x1C9);
   (0x1C8, 0x1C8, 1, 0x1C9); (0x1CA, 0x1CA, 1, 0x1CC); (0x1CB, 0x1DB, 2, 0x1CC);
   (0x1DE, 0x1EE, 2, 0x1DF); (0x1F1, 0x1F1, 1, 0x1F3); (0x1F2, 0x1F4, 2, 0x1F3);
   (0x1F6, 0x1F6, 1, 0x195); (0x1F7, 0x1F7, 1, 0x1BF); (0x1F8, 0x21E, 2, 0x1F9);
   (0x220, 0x220, 1, 0x19E); (0x222, 0x232, 2, 0x223); (0x23A, 0x23A, 1, 0x2C65);
   (0x23B, 0x23B, 1, 0x23C); (0x23D, 0x23D, 1, 0x19A); (0x23E, 0x23E, 1, 0x2C66);
   (0x241, 0x241, 1, 0x242); (0x243, 0x243, 1, 0x180); (0x244, 0x244, 1, 0x289);
   (0x245, 0x245, 1, 0x28C); (0x246, 0x24E, 2, 0x247); (0x370, 0x372, 2, 0x371);
   (0x376, 0x376, 1, 0x377); (0x37F, 0x37F, 1, 0x3F3); (0x386, 0x386, 1, 0x3AC);
   (0x388, 0x38A, 1, 0x3AD); (0x38C, 0x38C, 1, 0x3CC); (0x38E, 0x38F, 1, 0x3CD);
   (0x391, 0x3A1, 1, 0x3B1); (0x3A3, 0x3AB, 1, 0x3C3); (0x3CF, 0x3CF, 1, 0x3D7);
   (0x3D8, 0x3EE, 2, 0x3D9); (0x3F4, 0x3F4, 1, 0x3B8); (0x3F7, 0x3F7, 1, 0x3F8);
   (0x3F9, 0x3F9, 1, 0x3F2); (0x3FA, 0x3FA, 1, 0x3FB); (0x3FD, 0x3FF, 1, 0x37B);
   (0x400, 0x40F, 1, 0x450); (0x410, 0x42F, 1, 0x430); (0x460, 0x480, 2, 0x461);
   (0x48A, 0x4BE, 2, 0x48B); (0x4C0, 0x4C0, 1, 0x4CF); (0x4C1, 0x4CD, 2, 0x4C2);
   (0x4D0, 0x52E, 2, 0x4D1); (0x531, 0x556, 1, 0x561); (0x10A0, 0x10C5, 1, 0x2D00);
   (0x10C7, 0x10C7, 1, 0x2D27); (0x10CD, 0x10CD, 1, 0x2D2D); (0x13A0, 0x13EF, 1, 0xAB70);
   (0x13F0, 0x13F5, 1, 0x13F8); (0x1C90, 0x1CBA, 1, 0x10D0); (0x1CBD, 0x1CBF, 1, 0x10FD);
   (0x1E00, 0x1E94, 2, 0x1E01); (0x1E9E, 0x1E9E, 1, 0xDF); (0x1EA0, 0x1EFE, 2, 0x1EA1);
   (0x1F08, 0x1F0F, 1, 0x1F00); (0x1F18, 0x1F1D, 1, 0x1F10); (0x1F28, 0x1F2F, 1, 0x1F20);
   (0x1F38, 0x1F3F, 1, 0x1F30); (0x1F48, 0x1F4D, 1, 0x1F40); (0x1F59, 0x1F5F, 2, 0x1F51);
   (0x1F68, 0x1F6F, 1, 0x1F60); (0x1F88, 0x1F8F, 1, 0x1F80); (0x1F98, 0x1F9F, 1, 0x1F90);
   (0x1FA8, 0x1FAF, 1, 0x1FA0); (0x1FB8, 0x1FB9, 1, 0x1FB0); (0x1FBA, 0x1FBB, 1, 0x1F70);
   (0x1FBC, 0x1FBC, 1, 0x1FB3); (0x1FC8, 0x1FCB, 1, 0x1F72); (0x1FCC, 0x1FCC, 1, 0x1FC3);
   (0x1FD8, 0x1FD9, 1, 0x1FD0); (0x1FDA, 0x1FDB, 1, 0x1F76); (0x1FE8, 0x1FE9, 1, 0x1FE0);
   (0x1FEA, 0x1FEB, 1, 0x1F7A); (0x1FEC, 0x1FEC, 1, 0x1FE5); (0x1FF8, 0x1FF9, 1, 0x1F78);
   (0x1FFA, 0x1FFB, 1, 0x1F7C); (0x1FFC, 0x1FFC, 1, 0x1FF3); (0x2126, 0x2126, 1, 0x3C9);
   (0x212A, 0x212A, 1, 0x6B); (0x212B, 0x212B, 1, 0xE5); (0x2132, 0x2132, 1, 0x214E);
   (0x2160, 0x216F, 1, 0x2170); (0x2183, 0x2183, 1, 0x2184); (0x24B6, 0x24CF, 1, 0x24D0);
   (0x2C00, 0x2C2F, 1, 0x2C30); (0x2C60, 0x2C60, 1, 0x2C61); (0x2C62, 0x2C62, 1, 0x26B);
   (0x2C63, 0x2C63, 1, 0x1D7D); (0x2C64, 0x2C64, 1, 0x27D); (0x2C67, 0x2C6B, 2, 0x2C68);
   (0x2C6D, 0x2C6D, 1, 0x251); (0x2C6E, 0x2C6E, 1, 0x271); (0x2C6F, 0x2C6F, 1, 0x250);
   (0x2C70, 0x2C70, 1, 0x252); (0x2C72, 0x2C72, 1, 0x2C73); (0x2C75, 0x2C75, 1, 0x2C76);
   (0x2C7E, 0x2C7F, 1, 0x23F); (0x2C80, 0x2CE2, 2, 0x2C81); (0x2CEB, 0x2CED, 2, 0x2CEC);
   (0x2CF2, 0x2CF2, 1, 0x2CF3); (0xA640, 0xA66C, 2, 0xA641); (0xA680, 0xA69A, 2, 0xA681);
   (0xA722, 0xA72E, 2, 0xA723); (0xA732, 0xA76E, 2, 0xA733); (0xA779, 0xA77B, 2, 0xA77A);
   (0xA77D, 0xA77D, 1, 0x1D79); (0xA77E, 0xA786, 2, 0xA77F); (0xA78B, 0xA78B, 1, 0xA78C);
   (0xA78D, 0xA78D, 1, 0x265); (0xA790, 0xA792, 2, 0xA791); (0xA796, 0xA7A8, 2, 0xA797);
   (0xA7AA, 0xA7AA, 1, 0x266); (0xA7AB, 0xA7AB, 1, 0x25C); (0xA7AC, 0xA7AC, 1, 0x261);
   (0xA7AD, 0xA7AD, 1, 0x26C); (0xA7AE, 0xA7AE, 1, 0x26A); (0xA7B0, 0xA7B0, 1, 0x29E);
   (0xA7B1, 0xA7B1, 1, 0x287); (0xA7B2, 0xA7B2, 1, 0x29D); (0xA7B3, 0xA7B3, 1, 0xAB53);
   (0xA7B4, 0xA7C2, 2, 0xA7B5); (0xA7C4, 0xA7C4, 1, 0xA794); (0xA7C5, 0xA7C5, 1, 0x282);
   (0xA7C6, 0xA7C6, 1, 0x1D8E); (0xA7C7, 0xA7C9, 2, 0xA7C8); (0xA7D0, 0xA7D0, 1, 0xA7D1);
   (0xA7D6, 0xA7D8, 2, 0xA7D7); (0xA7F5, 0xA7F5, 1, 0xA7F6); (0xFF21, 0xFF3A, 1, 0xFF41);
   (0x10400, 0x10427, 1, 0x10428); (0x104B0, 0x104D3, 1, 0x104D8);
   (0x10570, 0x1057A, 1, 0x10597); (0x1057C, 0x1058A, 1, 0x105A3);
   (0x1058C, 0x10592, 1, 0x105B3); (0x10594, 0x10595, 1, 0x105BB);
   (0x10C80, 0x10CB2, 1, 0x10CC0); (0x118A0, 0x118BF, 1, 0x118C0);
   (0x16E40, 0x16E5F, 1, 0x16E60); (0x1E900, 0x1E921, 1, 0x1E922)].

(** The code points with the property Cased, as ranges. *)
Definition cased_ranges : list (N * N) :=
  [(0x41, 0x5A); (0x61, 0x7A); (0xAA, 0xAA); (0xB5, 0xB5); (0xBA, 0xBA); (0xC0, 0xD6);
   (0xD8, 0xF6); (0xF8, 0x1BA); (0x1BC, 0x1BF); (0x1C4, 0x293); (0x295, 0x2B8);
   (0x2C0, 0x2C1); (0x2E0, 0x2E4); (0x345, 0x345); (0x370, 0x373); (0x376, 0x377);
   (0x37A, 0x37D); (0x37F, 0x37F); (0x386, 0x386); (0x388, 0x38A); (0x38C, 0x38C);
   (0x38E, 0x3A1); (0x3A3, 0x3F5); (0x3F7, 0x481); (0x48A, 0x52F); (0x531, 0x556);
   (0x560, 0x588); (0x10A0, 0x10C5); (0x10C7, 0x10C7); (0x10CD, 0x10CD); (0x10D0, 0x10FA);
   (0x10FD, 0x10FF); (0x13A0, 0x13F5); (0x13F8, 0x13FD); (0x1C80, 0x1C88);
   (0x1C90, 0x1CBA); (0x1CBD, 0x1CBF); (0x1D00, 0x1DBF); (0x1E00, 0x1F15);
   (0x1F18, 0x1F1D); (0x1F20, 0x1F45); (0x1F48, 0x1F4D); (0x1F50, 0x1F57);
   (0x1F59, 0x1F59); (0x1F5B, 0x1F5B); (0x1F5D, 0x1F5D); (0x1F5F, 0x1F7D);
   (0x1F80, 0x1FB4); (0x1FB6, 0x1FBC); (0x1FBE, 0x1FBE); (0x1FC2, 0x1FC4);
   (0x1FC6, 0x1FCC); (0x1FD0, 0x1FD3); (0x1FD6, 0x1FDB); (0x1FE0, 0x1FEC);
   (0x1FF2, 0x1FF4); (0x1FF6, 0x1FFC); (0x2071, 0x2071); (0x207F, 0x207F);
   (0x2090, 0x209C); (0x2102, 0x2102); (0x2107, 0x2107); (0x210A, 0x2113);
   (0x2115, 0x2115); (0x2119, 0x211D); (0x2124, 0x2124); (0x2126, 0x2126);
   (0x2128, 0x2128); (0x212A, 0x212D); (0x212F, 0x2134); (0x2139, 0x2139);
   (0x213C, 0x213F); (0x2145, 0x2149); (0x214E, 0x214E); (0x2160, 0x217F);
   (0x2183, 0x2184); (0x24B6, 0x24E9); (0x2C00, 0x2CE4); (0x2CEB, 0x2CEE);
   (0x2CF2, 0x2CF3); (0x2D00, 0x2D25); (0x2D27, 0x2D27); (0x2D2D, 0x2D2D);
   (0xA640, 0xA66D); (0xA680, 0xA69D); (0xA722, 0xA787); (0xA78B, 0xA78E);
   (0xA790, 0xA7CA); (0xA7D0, 0xA7D1); (0xA7D3, 0xA7D3); (0xA7D5, 0xA7D9);
   (0xA7F5, 0xA7F6); (0xA7F8, 0xA7FA); (0xAB30, 0xAB5A); (0xAB5C, 0xAB68);
   (0xAB70, 0xABBF); (0xFB00, 0xFB06); (0xFB13, 0xFB17); (0xFF21, 0xFF3A);
   (0xFF41, 0xFF5A); (0x10400, 0x1044F); (0x104B0, 0x104D3); (0x104D8, 0x104FB);
   (0x10570, 0x1057A); (0x1057C, 0x1058A); (0x1058C, 0x10592); (0x10594, 0x10595);
   (0x10597, 0x105A1); (0x105A3, 0x105B1); (0x105B3, 0x105B9); (0x105BB, 0x105BC);
   (0x10780, 0x10780); (0x10783, 0x10785); (0x10787, 0x107B0); (0x107B2, 0x107BA);
   (0x10C80, 0x10CB2); (0x10CC0, 0x10CF2); (0x118A0, 0x118DF); (0x16E40, 0x16E7F);
   (0x1D400, 0x1D454); (0x1D456, 0x1D49C); (0x1D49E, 0x1D49F); (0x1D4A2, 0x1D4A2);
   (0x1D4A5, 0x1D4A6); (0x1D4A9, 0x1D4AC); (0x1D4AE, 0x1D4B9); (0x1D4BB, 0x1D4BB);
   (0x1D4BD, 0x1D4C3); (0x1D4C5, 0x1D505); (0x1D507, 0x1D50A); (0x1D50D, 0x1D514);
   (0x1D516, 0x1D51C); (0x1D51E, 0x1D539); (0x1D53B, 0x1D53E); (0x1D540, 0x1D544);
   (0x1D546, 0x1D546); (0x1D54A, 0x1D550); (0x1D552, 0x1D6A5); (0x1D6A8, 0x1D6C0);
   (0x1D6C2, 0x1D6DA); (0x1D6DC, 0x1D6FA); (0x1D6FC, 0x1D714); (0x1D716, 0x1D734);
   (0x1D736, 0x1D74E); (0x1D750, 0x1D76E); (0x1D770, 0x1D788); (0x1D78A, 0x1D7A8);
   (0x1D7AA, 0x1D7C2); (0x1D7C4, 0x1D7CB); (0x1DF00, 0x1DF09); (0x1DF0B, 0x1DF1E);
   (0x1E900, 0x1E943); (0x1F130, 0x1F149); (0x1F150, 0x1F169); (0x1F170, 0x1F189)].

(** The code points with the property Case_Ignorable, as ranges. *)
Definition case_ignorable_ranges : list (N * N) :=
  [(0x27, 0x27); (0x2E, 0x2E); (0x3A, 0x3A); (0x5E, 0x5E); (0x60, 0x60); (0xA8, 0xA8);
   (0xAD, 0xAD); (0xAF, 0xAF); (0xB4, 0xB4); (0xB7, 0xB8); (0x2B0, 0x36F); (0x374, 0x375);
   (0x37A, 0x37A); (0x384, 0x385); (0x387, 0x387); (0x483, 0x489); (0x559, 0x559);
   (0x55F, 0x55F); (0x591, 0x5BD); (0x5BF, 0x5BF); (0x5C1, 0x5C2); (0x5C4, 0x5C5);
   (0x5C7, 0x5C7); (0x5F4, 0x5F4); (0x600, 0x605); (0x610, 0x61A); (0x61C, 0x61C);
   (0x640, 0x640); (0x64B, 0x65F); (0x670, 0x670); (0x6D6, 0x6DD); (0x6DF, 0x6E8);
   (0x6EA, 0x6ED); (0x70F, 0x70F); (0x711, 0x711); (0x730, 0x74A); (0x7A6, 0x7B0);
   (0x7EB, 0x7F5); (0x7FA, 0x7FA); (0x7FD, 0x7FD); (0x816, 0x82D); (0x859, 0x85B);
   (0x888, 0x888); (0x890, 0x891); (0x898, 0x89F); (0x8C9, 0x902); (0x93A, 0x93A);
   (0x93C, 0x93C); (0x941, 0x948); (0x94D, 0x94D); (0x951, 0x957); (0x962, 0x963);
   (0x971, 0x971); (0x981, 0x981); (0x9BC, 0x9BC); (0x9C1, 0x9C4); (0x9CD, 0x9CD);
   (0x9E2, 0x9E3); (0x9FE, 0x9FE); (0xA01, 0xA02); (0xA3C, 0xA3C); (0xA41, 0xA42);
   (0xA47, 0xA48); (0xA4B, 0xA4D); (0xA51, 0xA51); (0xA70, 0xA71); (0xA75, 0xA75);
   (0xA81, 0xA82); (0xABC, 0xABC); (0xAC1, 0xAC5); (0xAC7, 0xAC8); (0xACD, 0xACD);
   (0xAE2, 0xAE3); (0xAFA, 0xAFF); (0xB01, 0xB01); (0xB3C, 0xB3C); (0xB3F, 0xB3F);
   (0xB41, 0xB44); (0xB4D, 0xB4D); (0xB55, 0xB56); (0xB62, 0xB63); (0xB82, 0xB82);
   (0xBC0, 0xBC0); (0xBCD, 0xBCD); (0xC00, 0xC00); (0xC04, 0xC04); (0xC3C, 0xC3C);
   (0xC3E, 0xC40); (0xC46, 0xC48); (0xC4A, 0xC4D); (0xC55, 0xC56); (0xC62, 0xC63);
   (0xC81, 0xC81); (0xCBC, 0xCBC); (0xCBF, 0xCBF); (0xCC6, 0xCC6); (0xCCC, 0xCCD);
   (0xCE2, 0xCE3); (0xD00, 0xD01); (0xD3B, 0xD3C); (0xD41, 0xD44); (0xD4D, 0xD4D);
   (0xD62, 0xD63); (0xD81, 0xD81); (0xDCA, 0xDCA); (0xDD2, 0xDD4); (0xDD6, 0xDD6);
   (0xE31, 0xE31); (0xE34, 0xE3A); (0xE46, 0xE4E); (0xEB1, 0xEB1); (0xEB4, 0xEBC);
   (0xEC6, 0xEC6); (0xEC8, 0xECD); (0xF18, 0xF19); (0xF35, 0xF35); (0xF37, 0xF37);
   (0xF39, 0xF39); (0xF71, 0xF7E); (0xF80, 0xF84); (0xF86, 0xF87); (0xF8D, 0xF97);
   (0xF99, 0xFBC); (0xFC6, 0xFC6); (0x102D, 0x1030); (0x1032, 0x1037); (0x1039, 0x103A);
   (0x103D, 0x103E); (0x1058, 0x1059); (0x105E, 0x1060); (0x1071, 0x1074);
   (0x1082, 0x1082); (0x1085, 0x1086); (0x108D, 0x108D); (0x109D, 0x109D);
   (0x10FC, 0x10FC); (0x135D, 0x135F); (0x1712, 0x1714); (0x1732, 0x1733);
   (0x1752, 0x1753); (0x1772, 0x1773); (0x17B4, 0x17B5); (0x17B7, 0x17BD);
   (0x17C6, 0x17C6); (0x17C9, 0x17D3); (0x17D7, 0x17D7); (0x17DD, 0x17DD);
   (0x180B, 0x180F); (0x1843, 0x1843); (0x1885, 0x1886); (0x18A9, 0x18A9);
   (0x1920, 0x1922); (0x1927, 0x1928); (0x1932, 0x1932); (0x1939, 0x193B);
   (0x1A17, 0x1A18); (0x1A1B, 0x1A1B); (0x1A56, 0x1A56); (0x1A58, 0x1A5E);
   (0x1A60, 0x1A60); (0x1A62, 0x1A62); (0x1A65, 0x1A6C); (0x1A73, 0x1A7C);
   (0x1A7F, 0x1A7F); (0x1AA7, 0x1AA7); (0x1AB0, 0x1ACE); (0x1B00, 0x1B03);
   (0x1B34, 0x1B34); (0x1B36, 0x1B3A); (0x1B3C, 0x1B3C); (0x1B42, 0x1B42);
   (0x1B6B, 0x1B73); (0x1B80, 0x1B81); (0x1BA2, 0x1BA5); (0x1BA8, 0x1BA9);
   (0x1BAB, 0x1BAD); (0x1BE6, 0x1BE6); (0x1BE8, 0x1BE9); (0x1BED, 0x1BED);
   (0x1BEF, 0x1BF1); (0x1C2C, 0x1C33); (0x1C36, 0x1C37); (0x1C78, 0x1C7D);
   (0x1CD0, 0x1CD2); (0x1CD4, 0x1CE0); (0x1CE2, 0x1CE8); (0x1CED, 0x1CED);
   (0x1CF4, 0x1CF4); (0x1CF8, 0x1CF9); (0x1D2C, 0x1D6A); (0x1D78, 0x1D78);
   (0x1D9B, 0x1DFF); (0x1FBD, 0x1FBD); (0x1FBF, 0x1FC1); (0x1FCD, 0x1FCF);
   (0x1FDD, 0x1FDF); (0x1FED, 0x1FEF); (0x1FFD, 0x1FFE); (0x200B, 0x200F);
   (0x2018, 0x2019); (0x2024, 0x2024); (0x2027, 0x2027); (0x202A, 0x202E);
   (0x2060, 0x2064); (0x2066, 0x206F); (0x2071, 0x2071); (0x207F, 0x207F);
   (0x2090, 0x209C); (0x20D0, 0x20F0); (0x2C7C, 0x2C7D); (0x2CEF, 0x2CF1);
   (0x2D6F, 0x2D6F); (0x2D7F, 0x2D7F); (0x2DE0, 0x2DFF); (0x2E2F, 0x2E2F);
   (0x3005, 0x3005); (0x302A, 0x302D); (0x3031, 0x3035); (0x303B, 0x303B);
   (0x3099, 0x309E); (0x30FC, 0x30FE); (0xA015, 0xA015); (0xA4F8, 0xA4FD);
   (0xA60C, 0xA60C); (0xA66F, 0xA672); (0xA674, 0xA67D); (0xA67F, 0xA67F);
   (0xA69C, 0xA69F); (0xA6F0, 0xA6F1); (0xA700, 0xA721); (0xA770, 0xA770);
   (0xA788, 0xA78A); (0xA7F2, 0xA7F4); (0xA7F8, 0xA7F9); (0xA802, 0xA802);
   (0xA806, 0xA806); (0xA80B, 0xA80B); (0xA825, 0xA826); (0xA82C, 0xA82C);
   (0xA8C4, 0xA8C5); (0xA8E0, 0xA8F1); (0xA8FF, 0xA8FF); (0xA926, 0xA92D);
   (0xA947, 0xA951); (0xA980, 0xA982); (0xA9B3, 0xA9B3); (0xA9B6, 0xA9B9);
   (0xA9BC, 0xA9BD); (0xA9CF, 0xA9CF); (0xA9E5, 0xA9E6); (0xAA29, 0xAA2E);
   (0xAA31, 0xAA32); (0xAA35, 0xAA36); (0xAA43, 0xAA43); (0xAA4C, 0xAA4C);
   (0xAA70, 0xAA70); (0xAA7C, 0xAA7C); (0xAAB0, 0xAAB0); (0xAAB2, 0xAAB4);
   (0xAAB7, 0xAAB8); (0xAABE, 0xAABF); (0xAAC1, 0xAAC1); (0xAADD, 0xAADD);
   (0xAAEC, 0xAAED); (0xAAF3, 0xAAF4); (0xAAF6, 0xAAF6); (0xAB5B, 0xAB5F);
   (0xAB69, 0xAB6B); (0xABE5, 0xABE5); (0xABE8, 0xABE8); (0xABED, 0xABED);
   (0xFB1E, 0xFB1E); (0xFBB2, 0xFBC2); (0xFE00, 0xFE0F); (0xFE13, 0xFE13);
   (0xFE20, 0xFE2F); (0xFE52, 0xFE52); (0xFE55, 0xFE55); (0xFEFF, 0xFEFF);
   (0xFF07, 0xFF07); (0xFF0E, 0xFF0E); (0xFF1A, 0xFF1A); (0xFF3E, 0xFF3E);
   (0xFF40, 0xFF40); (0xFF70, 0xFF70); (0xFF9E, 0xFF9F); (0xFFE3, 0xFFE3);
   (0xFFF9, 0xFFFB); (0x101FD, 0x101FD); (0x102E0, 0x102E0); (0x10376, 0x1037A);
   (0x10780, 0x10785); (0x10787, 0x107B0); (0x107B2, 0x107BA); (0x10A01, 0x10A03);
   (0x10A05, 0x10A06); (0x10A0C, 0x10A0F); (0x10A38, 0x10A3A); (0x10A3F, 0x10A3F);
   (0x10AE5, 0x10AE6); (0x10D24, 0x10D27); (0x10EAB, 0x10EAC); (0x10F46, 0x10F50);
   (0x10F82, 0x10F85); (0x11001, 0x11001); (0x11038, 0x11046); (0x11070, 0x11070);
   (0x11073, 0x11074); (0x1107F, 0x11081); (0x110B3, 0x110B6); (0x110B9, 0x110BA);
   (0x110BD, 0x110BD); (0x110C2, 0x110C2); (0x110CD, 0x110CD); (0x11100, 0x11102);
   (0x11127, 0x1112B); (0x1112D, 0x11134); (0x11173, 0x11173); (0x11180, 0x11181);
   (0x111B6, 0x111BE); (0x111C9, 0x111CC); (0x111CF, 0x111CF); (0x1122F, 0x11231);
   (0x11234, 0x11234); (0x11236, 0x11237); (0x1123E, 0x1123E); (0x112DF, 0x112DF);
   (0x112E3, 0x112EA); (0x11300, 0x11301); (0x1133B, 0x1133C); (0x11340, 0x11340);
   (0x11366, 0x1136C); (0x11370, 0x11374); (0x11438, 0x1143F); (0x11442, 0x11444);
   (0x11446, 0x11446); (0x1145E, 0x1145E); (0x114B3, 0x114B8); (0x114BA, 0x114BA);
   (0x114BF, 0x114C0); (0x114C2, 0x114C3); (0x115B2, 0x115B5); (0x115BC, 0x115BD);
   (0x115BF, 0x115C0); (0x115DC, 0x115DD); (0x11633, 0x1163A); (0x1163D, 0x1163D);
   (0x1163F, 0x11640); (0x116AB, 0x116AB); (0x116AD, 0x116AD); (0x116B0, 0x116B5);
   (0x116B7, 0x116B7); (0x1171D, 0x1171F); (0x11722, 0x11725); (0x11727, 0x1172B);
   (0x1182F, 0x11837); (0x11839, 0x1183A); (0x1193B, 0x1193C); (0x1193E, 0x1193E);
   (0x11943, 0x11943); (0x119D4, 0x119D7); (0x119DA, 0x119DB); (0x119E0, 0x119E0);
   (0x11A01, 0x11A0A); (0x11A33, 0x11A38); (0x11A3B, 0x11A3E); (0x11A47, 0x11A47);
   (0x11A51, 0x11A56); (0x11A59, 0x11A5B); (0x11A8A, 0x11A96); (0x11A98, 0x11A99);
   (0x11C30, 0x11C36); (0x11C38, 0x11C3D); (0x11C3F, 0x11C3F); (0x11C92, 0x11CA7);
   (0x11CAA, 0x11CB0); (0x11CB2, 0x11CB3); (0x11CB5, 0x11CB6); (0x11D31, 0x11D36);
   (0x11D3A, 0x11D3A); (0x11D3C, 0x11D3D); (0x11D3F, 0x11D45); (0x11D47, 0x11D47);
   (0x11D90, 0x11D91); (0x11D95, 0x11D95); (0x11D97, 0x11D97); (0x11EF3, 0x11EF4);
   (0x13430, 0x13438); (0x16AF0, 0x16AF4); (0x16B30, 0x16B36); (0x16B40, 0x16B43);
   (0x16F4F, 0x16F4F); (0x16F8F, 0x16F9F); (0x16FE0, 0x16FE1); (0x16FE3, 0x16FE4);
   (0x1AFF0, 0x1AFF3); (0x1AFF5, 0x1AFFB); (0x1AFFD, 0x1AFFE); (0x1BC9D, 0x1BC9E);
   (0x1BCA0, 0x1BCA3); (0x1CF00, 0x1CF2D); (0x1CF30, 0x1CF46); (0x1D167, 0x1D169);
   (0x1D173, 0x1D182); (0x1D185, 0x1D18B); (0x1D1AA, 0x1D1AD); (0x1D242, 0x1D244);
   (0x1DA00, 0x1DA36); (0x1DA3B, 0x1DA6C); (0x1DA75, 0x1DA75); (0x1DA84, 0x1DA84);
   (0x1DA9B, 0x1DA9F); (0x1DAA1, 0x1DAAF); (0x1E000, 0x1E006); (0x1E008, 0x1E018);
   (0x1E01B, 0x1E021); (0x1E023, 0x1E024); (0x1E026, 0x1E02A); (0x1E130, 0x1E13D);
   (0x1E2AE, 0x1E2AE); (0x1E2EC, 0x1E2EF); (0x1E8D0, 0x1E8D6); (0x1E944, 0x1E94B);
   (0x1F3FB, 0x1F3FF); (0xE0001, 0xE0001); (0xE0020, 0xE007F); (0xE0100, 0xE01EF)].

Definition in_ranges (rs : list (N * N)) (c : N) : bool :=
  existsb (fun r => (fst r <=? c) && (c <=? snd r)) rs.

Definition cased : N -> bool := in_ranges cased_ranges.

Definition case_ignorable : N -> bool := in_ranges case_ignorable_ranges.

Definition covers (c : N) (r : N * N * N * N) : bool :=
  let '(first, last, step, _) := r in
  (first <=? c) && (c <=? last) && ((c - first) mod step =? 0).

(** The full lower-case mapping of one code point. *)
Definition to_lower_full (c : N) : list N :=
  if c =? 0x130 then [0x69; 0x307]
  else
    match find (covers c) lower_ranges with
    | Some (first, _, _, target) => [target + (c - first)]
    | None => [c]
    end.

(** Whether the text after a capital sigma starts, past any case-ignorable
    code points, with a cased one. *)
Fixpoint followed_by_cased (after : list N) : bool :=
  match after with
  | [] => false
  | c :: rest => if case_ignorable c then followed_by_cased rest else cased c
  end.

(** Lower-casing of a text, code point by code point.  U+03A3 becomes the
    final sigma U+03C2 when a cased code point precedes it (case-ignorable
    ones skipped) and none follows it, U+03C3 otherwise.
    [preceded_by_cased] carries the first half of that test. *)
Fixpoint lower_from (preceded_by_cased : bool) (text : list N) : list N :=
  match text with
  | [] => []
  | c :: rest =>
      (if c =? 0x3A3
       then [if preceded_by_cased && negb (followed_by_cased rest)
             then 0x3C2 else 0x3C3]
       else to_lower_full c) ++
      lower_from (if case_ignorable c then preceded_by_cased else cased c) rest
  end.

(** UTF-8. *)
Definition encode_point (c : N) : list N :=
  if c <? 0x80 then [c]
  else if c <? 0x800 then [0xC0 + c / 64; 0x80 + c mod 64]
  else if c <? 0x10000 then
    [0xE0 + c / 4096; 0x80 + (c / 64) mod 64; 0x80 + c mod 64]
  else
    [0xF0 + c / 262144; 0x80 + (c / 4096) mod 64; 0x80 + (c / 64) mod 64;
     0x80 + c mod 64].

Definition continuation (b : N) : bool := (0x80 <=? b) && (b <? 0xC0).

Fixpoint decode (bytes : list N) : option (list N) :=
  match bytes with
  | [] => Some []
  | b0 :: r0 =>
      if b0 <? 0x80 then option_map (cons b0) (decode r0)
      else
        match r0 with
        | [] => None
        | b1 :: r1 =>
            if (0xC2 <=? b0) && (b0 <? 0xE0) then
              if continuation b1
              then option_map (cons ((b0 - 0xC0) * 64 + (b1 - 0x80))) (decode r1)
              else None
            else
              match r1 with
              | [] => None
              | b2 :: r2 =>
                  let c3 := (b0 - 0xE0) * 4096 + (b1 - 0x80) * 64 + (b2 - 0x80) in
                  if (0xE0 <=? b0) && (b0 <? 0xF0) then
                    if continuation b1 && continuation b2 && (0x800 <=? c3)
                    then option_map (cons c3) (decode r2)
                    else None
                  else
                    match r2 with
                    | [] => None
                    | b3 :: r3 =>
                        let c4 := (b0 - 0xF0) * 262144 + (b1 - 0x80) * 4096 +
                                  (b2 - 0x80) * 64 + (b3 - 0x80) in
                        if (0xF0 <=? b0) && (b0 <? 0xF8) && continuation b1 &&
                           continuation b2 && continuation b3 &&
                           (0x10000 <=? c4) && (c4 <? 0x110000)
                        then option_map (cons c4) (decode r3)
                        else None
                    end
              end
        end
  end.

(** How many continuation bytes follow the lead byte [b]. *)
Definition trail (b : N) : nat :=
  if b <? 0xC0 then 0%nat
  else if b <? 0xE0 then 1%nat
  else if b <? 0xF0 then 2%nat
  else 3%nat.

Definition bytes_of (s : string) : list N :=
  map N_of_ascii (list_ascii_of_string s).

Definition string_of (bytes : list N) : string :=
  string_of_list_ascii (map ascii_of_N bytes).

Definition utf8_decode (s : string) : option (list N) := decode (bytes_of s).

Definition utf8_encode (text : list N) : string :=
  string_of (flat_map encode_point text).

End Unicode.

(** ** Python values and strings *)

Module Py.

#[local] Set Warnings "-register-all".

Inductive json : Type :=
| JNone
| JBool (b : bool)
| JInt (n : Z)
| JFloat (x : spec_float)
| JStr (s : string)
| JList (items : list json)
| JDict (items : list (string * json)).

(** What the script does to the outside world: the psycopg2 calls on the
    connection and its cursor, and the lines it prints.  [Execute q None]
    is [cursor.execute(q)]; [Execute q (Some vars)] is
    [cursor.execute(q, vars)], the query text and the bound parameters
    kept apart as the driver receives them. *)
Inductive effect : Type :=
| Connect
| Cursor
| Execute (query : string) (vars : option (list json))
| Commit
| CursorClose
| ConnectionClose
| Print (line : string).

Inductive exn : Type :=
| IndexError
| KeyError (key : json)
| TypeError
| AttributeError
| StopIteration
| DatabaseError (failed : effect).

(** [isinstance(value, T)].  [bool] is a subclass of [int]. *)
Definition isinstance_bool (value : json) : bool :=
  match value with JBool _ => true | _ => false end.

Definition isinstance_int (value : json) : bool :=
  match value with JBool _ | JInt _ => true | _ => false end.

Definition isinstance_float (value : json) : bool :=
  match value with JFloat _ => true | _ => false end.

Definition isinstance_dict (value : json) : bool :=
  match value with JDict _ => true | _ => false end.

(** [str.lower].  A byte string that is not the UTF-8 form of a text stands
    for no Python string and is left as it is. *)
Definition lower (s : string) : string :=
  match Unicode.utf8_decode s with
  | Some text => Unicode.utf8_encode (Unicode.lower_from false text)
  | None => s
  end.

(** The first code point of the text that starts with the byte [c]. *)
Definition first_char (c : ascii) (rest : string) : string :=
  String c (substring 0 (Unicode.trail (N_of_ascii c)) rest).

(** [x in t] for a tuple of strings. *)
Definition contains (t : list string) (x : string) : bool :=
  existsb (String.eqb x) t.

(** [", ".join(parts)]. *)
Definition join (sep : string) (parts : list string) : string :=
  String.concat sep parts.

(** [d[key]] on the items of a dict. *)
Fixpoint lookup (key : string) (items : list (string * json)) : option json :=
  match items with
  | [] => None
  | (k, v) :: rest => if String.eqb key k then Some v else lookup key rest
  end.

(** [value.keys()]: only a dict has the method. *)
Definition keys (value : json) : exn + list string :=
  match value with
  | JDict items => inr (map fst items)
  | _ => inl AttributeError
  end.

(** [value[0]]. *)
Definition getitem0 (value : json) : exn + json :=
  match value with
  | JList items =>
      match items with
      | x :: _ => inr x
      | [] => inl IndexError
      end
  | JStr s =>
      match s with
      | String c rest => inr (JStr (first_char c rest))
      | EmptyString => inl IndexError
      end
  | JDict _ => inl (KeyError (JInt 0))
  | _ => inl TypeError
  end.

(** [value[key]] for a string key. *)
Definition getitem (value : json) (key : string) : exn + json :=
  match value with
  | JDict items =>
      match lookup key items with
      | Some v => inr v
      | None => inl (KeyError (JStr key))
      end
  | _ => inl TypeError
  end.

(** The elements a [for] loop over [value] visits. *)
Definition iter (value : json) : exn + list json :=
  match value with
  | JList items => inr items
  | JDict items => inr (map (fun kv => JStr (fst kv)) items)
  | JStr s =>
      match Unicode.utf8_decode s with
      | Some text => inr (map (fun c => JStr (Unicode.utf8_encode [c])) text)
      | None => inr (map (fun c => JStr (String c EmptyString)) (list_ascii_of_string s))
      end
  | _ => inl TypeError
  end.

End Py.

Import Py.

(** ** Type decision *)

Definition GEOMETRY_HEADERS : list string := ["geom"; "geometry"; "wkt"].

(** U+212A KELVIN SIGN in UTF-8; its lower-case form is the letter k. *)
Definition kelvin_sign : string :=
  String (ascii_of_nat 226) (String (ascii_of_nat 132) (String (ascii_of_nat 170) EmptyString)).

Definition is_geometry_header (header : string) : bool :=
  contains GEOMETRY_HEADERS (lower header).

Definition decide_sql_type (header : string) (value : json) : string :=
  if is_geometry_header header then "GEOMETRY(GEOMETRY, 3857)"
  else if isinstance_bool value then "BOOLEAN"
  else if isinstance_int value then "INTEGER"
  else if isinstance_float value then "DOUBLE PRECISION"
  else if isinstance_dict value then "JSONB"
  else "TEXT".

(** ** Running the script: a trace of effects, or an exception *)

Definition trace : Type := list effect.

(** Whether the next driver call returns ([true]) or raises, given the
    calls that returned so far. *)
Definition driver : Type := trace -> effect -> bool.

(** A driver on which every call returns. *)
Definition reliable : driver := fun _ _ => true.

Definition run (A : Type) : Type := trace -> trace * (exn + A).

Definition ret {A : Type} (a : A) : run A := fun tr => (tr, inr a).

Definition raise {A : Type} (e : exn) : run A := fun tr => (tr, inl e).

Definition bind {A B : Type} (m : run A) (k : A -> run B) : run B :=
  fun tr =>
    match m tr with
    | (tr', inr a) => k a tr'
    | (tr', inl e) => (tr', inl e)
    end.

Notation "x <- m ;; k" := (bind m (fun x => k))
  (at level 61, m at next level, right associativity).
Notation "m ;; k" := (bind m (fun _ => k))
  (at level 61, right associativity).

Definition lift {A : Type} (r : exn + A) : run A :=
  match r with
  | inl e => raise e
  | inr a => ret a
  end.

Definition perform (db : driver) (c : effect) : run unit :=
  fun tr => if db tr c then (tr ++ [c], inr tt) else (tr, inl (DatabaseError c)).

Definition print (line : string) : run unit :=
  fun tr => (tr ++ [Print line], inr tt).

(** ** Text of the statements and messages *)

Definition nl : string := String (ascii_of_nat 10) EmptyString.

(** The check mark that ends every message, in UTF-8. *)
Definition check_mark : string :=
  String (ascii_of_nat 226) (String (ascii_of_nat 156) (String (ascii_of_nat 133) EmptyString)).

Definition surrogate_key : string := "id BIGSERIAL PRIMARY KEY".

Definition column (header sql_type : string) : string :=
  header +++ " " +++ sql_type.

Definition drop_sql (table_name : string) : string :=
  "DROP TABLE IF EXISTS " +++ table_name +++ ";".

Definition create_sql (table_name : string) (columns_with_types : list string) : string :=
  nl +++ "    CREATE TABLE IF NOT EXISTS " +++ table_name +++ " (" +++ nl +++
  "        " +++ join ", " columns_with_types +++ nl +++
  "    );" +++ nl +++
  "    ".

Definition index_sql (table_name spatial_column : string) : string :=
  nl +++ "            CREATE INDEX IF NOT EXISTS idx_" +++ table_name +++ "_" +++
  spatial_column +++ " " +++ nl +++
  "            ON " +++ table_name +++ " USING GIST(" +++ spatial_column +++ ");" +++ nl +++
  "        ".

Definition insert_sql (table_name : string) (headers placeholders : list string) : string :=
  nl +++ "    INSERT INTO " +++ table_name +++ " (" +++ join ", " headers +++ ")" +++ nl +++
  "    VALUES (" +++ join ", " placeholders +++ ")" +++ nl +++
  "    ".

Definition geometry_placeholder : string :=
  "ST_Transform(ST_GeomFromText(%s, 3857), 3857)".

Definition plain_placeholder : string := "%s".

Definition spatial_message (table_name : string) : string :=
  "Table " +++ table_name +++ " created successfully with spatial support " +++ check_mark.

Definition plain_message (table_name : string) : string :=
  "Table " +++ table_name +++ " created successfully without spatial support " +++ check_mark.

Definition filled_message (table_name : string) : string :=
  "Table " +++ table_name +++ " was filled with data successfully " +++ check_mark.

(** ** create_table_from_json *)

(** The loop that appends one column per header to [columns_with_types]. *)
Fixpoint append_columns (first_json_entry : json) (headers : list string)
    (columns_with_types : list string) : exn + list string :=
  match headers with
  | [] => inr columns_with_types
  | header :: rest =>
      match getitem first_json_entry header with
      | inl e => inl e
      | inr value =>
          let sql_type := decide_sql_type header value in
          append_columns first_json_entry rest
            (columns_with_types ++ [column header sql_type])
      end
  end.

(** [next(header for header in keys if header.lower() in GEOMETRY_HEADERS)]. *)
Definition next_geometry_header (headers : list string) : exn + string :=
  match find is_geometry_header headers with
  | Some header => inr header
  | None => inl StopIteration
  end.

Definition create_table_from_json (db : driver) (json_data : json)
    (table_name : string) : run unit :=
  first_json_entry <- lift (getitem0 json_data) ;;
  headers <- lift (keys first_json_entry) ;;
  columns_with_types <-
    lift (append_columns first_json_entry headers ([] ++ [surrogate_key])) ;;
  let create := create_sql table_name columns_with_types in
  perform db Connect ;;
  perform db Cursor ;;
  perform db (Execute (drop_sql table_name) None) ;;
  perform db (Execute create None) ;;
  ks <- lift (keys first_json_entry) ;;
  if existsb is_geometry_header ks then
    ks' <- lift (keys first_json_entry) ;;
    spatial_column <- lift (next_geometry_header ks') ;;
    perform db (Execute (index_sql table_name spatial_column) None) ;;
    perform db Commit ;;
    perform db CursorClose ;;
    perform db ConnectionClose ;;
    print (spatial_message table_name)
  else
    print (plain_message table_name).

(** ** insert_data_from_json *)

(** The loop that fills [placeholders] and [headers]. *)
Fixpoint append_placeholders (ks : list string) (placeholders headers : list string)
    : list string * list string :=
  match ks with
  | [] => (placeholders, headers)
  | header :: rest =>
      let placeholders' :=
        if is_geometry_header header
        then placeholders ++ [geometry_placeholder]
        else placeholders ++ [plain_placeholder] in
      append_placeholders rest placeholders' (headers ++ [header])
  end.

(** [tuple(entry[header] for header in headers)], left to right. *)
Fixpoint tuple_of (entry : json) (headers : list string) : exn + list json :=
  match headers with
  | [] => inr []
  | header :: rest =>
      match getitem entry header with
      | inl e => inl e
      | inr v =>
          match tuple_of entry rest with
          | inl e => inl e
          | inr vs => inr (v :: vs)
          end
      end
  end.

(** The loop over the entries: one [cursor.execute(insert_sql, data)] each. *)
Fixpoint insert_entries (db : driver) (insert : string) (headers : list string)
    (entries : list json) : run unit :=
  match entries with
  | [] => ret tt
  | entry :: rest =>
      data <- lift (tuple_of entry headers) ;;
      perform db (Execute insert (Some data)) ;;
      insert_entries db insert headers rest
  end.

Definition insert_data_from_json (db : driver) (json_data : json)
    (table_name : string) : run unit :=
  first_json_entry <- lift (getitem0 json_data) ;;
  ks <- lift (keys first_json_entry) ;;
  let '(placeholders, headers) := append_placeholders ks [] [] in
  let insert := insert_sql table_name headers placeholders in
  perform db Connect ;;
  perform db Cursor ;;
  entries <- lift (iter json_data) ;;
  insert_entries db insert headers entries ;;
  perform db Commit ;;
  perform db CursorClose ;;
  perform db ConnectionClose ;;
  print (filled_message table_name).

(** ** The type decision, as the specification words it *)

(** The precedence list of section 4.2: the geometry aliases first, then
    the value's shape, text as the fallback. *)
Definition spec_type_decision (header : string) (value : json) : string :=
  if contains ["geom"; "geometry"; "wkt"] (lower header)
  then "GEOMETRY(GEOMETRY, 3857)"
  else
    match value with
    | JBool _ => "BOOLEAN"
    | JInt _ => "INTEGER"
    | JFloat _ => "DOUBLE PRECISION"
    | JDict _ => "JSONB"
    | JStr _ | JNone | JList _ => "TEXT"
    end.

(** ** Reading a trace *)

(** The placeholder the insert loop chooses for a header. *)
Definition placeholder_for (header : string) : string :=
  if is_geometry_header header then geometry_placeholder else plain_placeholder.

(** The insert statement for a table and a list of keys. *)
Definition insert_statement (table_name : string) (ks : list string) : string :=
  insert_sql table_name ks (map placeholder_for ks).

Definition is_commit (c : effect) : bool :=
  match c with Commit => true | _ => false end.

Definition commits (tr : trace) : nat := List.length (filter is_commit tr).

(** The parameterized statements of a trace, each with its parameters. *)
Fixpoint executed_inserts (tr : trace) : list (string * list json) :=
  match tr with
  | [] => []
  | Execute q (Some vars) :: rest => (q, vars) :: executed_inserts rest
  | _ :: rest => executed_inserts rest
  end.

(** The destination table as the transaction sees it: a parameterized
    insert adds a pending row, a commit makes the pending rows permanent,
    and closing the connection discards what is still pending. *)
Module Table.

Record state : Type := { committed : list (list json); pending : list (list json) }.

Definition step (st : state) (c : effect) : state :=
  match c with
  | Execute _ (Some vars) =>
      {| committed := committed st; pending := pending st ++ [vars] |}
  | Commit =>
      {| committed := committed st ++ pending st; pending := [] |}
  | ConnectionClose =>
      {| committed := committed st; pending := [] |}
  | _ => st
  end.

Definition replay (tr : trace) (st : state) : state := fold_left step tr st.

End Table.

(** A run only ever adds to the trace. *)
Definition extends {A : Type} (m : run A) : Prop :=
  forall tr, exists tail, fst (m tr) = tr ++ tail.

(** The effect of one record's insert. *)
Definition insert_effect (insert : string) (data : list json) : effect :=
  Execute insert (Some data).

(** What follows the commit in [insert_data_from_json]. *)
Definition closing (table_name : string) : trace :=
  [CursorClose; ConnectionClose; Print (filled_message table_name)].

(** The ways a run of [insert_data_from_json] can end: before a cursor
    exists; after a cursor exists and some of the inserts, with an
    exception and without a commit; or past the commit, after every
    record's insert. *)
Inductive load_outcome (table_name : string) (json_data : json)
  : trace * (exn + unit) -> Prop :=
| load_unconnected (tr : trace) (e : exn) :
    tr = [] \/ tr = [Connect] ->
    load_outcome table_name json_data (tr, inl e)
| load_aborted (items : list (string * json)) (rest : list json)
    (datas : list (list json)) (e : exn) :
    json_data = JList (JDict items :: rest) ->
    Forall2 (fun entry data => tuple_of entry (map fst items) = inr data)
      (firstn (List.length datas) (JDict items :: rest)) datas ->
    load_outcome table_name json_data
      (Connect :: Cursor ::
       map (insert_effect (insert_statement table_name (map fst items))) datas,
       inl e)
| load_committed (items : list (string * json)) (rest : list json)
    (datas : list (list json)) (done todo : trace) (res : exn + unit) :
    json_data = JList (JDict items :: rest) ->
    Forall2 (fun entry data => tuple_of entry (map fst items) = inr data)
      (JDict items :: rest) datas ->
    closing table_name = done ++ todo ->
    (todo = [] <-> res = inr tt) ->
    load_outcome table_name json_data
      (Connect :: Cursor ::
       map (insert_effect (insert_statement table_name (map fst items))) datas ++
       Commit :: done,
       res).

(** ** The script as a whole *)

(** The calls [create_table_from_json] makes when nothing raises, for the
    composed columns and the first record's keys. *)
Definition create_plan (table_name : string) (columns_with_types ks : list string)
    : trace :=
  [Connect; Cursor;
   Execute (drop_sql table_name) None;
   Execute (create_sql table_name columns_with_types) None] ++
  match find is_geometry_header ks with
  | Some spatial_column =>
      [Execute (index_sql table_name spatial_column) None;
       Commit; CursorClose; ConnectionClose; Print (spatial_message table_name)]
  | None => [Print (plain_message table_name)]
  end.

(** The driver as seen by a run that starts after the calls [tr0]. *)
Definition shift (db : driver) (tr0 : trace) : driver :=
  fun tr c => db (tr0 ++ tr) c.

(** [m], started after [tr0], does what [m'] does from the empty trace. *)
Definition framed {A : Type} (tr0 : trace) (m m' : run A) : Prop :=
  forall tr, m (tr0 ++ tr) = (tr0 ++ fst (m' tr), snd (m' tr)).

(** The [__main__] block: build the table, then fill it.  Each call loads
    the file again, so each gets its own reading of it. *)
Definition main (db : driver) (first_read second_read : json) : run unit :=
  create_table_from_json db first_read "GEO_TABLE" ;;
  insert_data_from_json db second_read "GEO_TABLE".

(** The text of every statement of a trace, in order. *)
Fixpoint statements (tr : trace) : list string :=
  match tr with
  | [] => []
  | Execute q _ :: rest => q :: statements rest
  | _ :: rest => statements rest
  end.

(** ** Facts about strings and lookups *)

Section TextFacts.

Import Unicode.

Local Open Scope N_scope.

Ltac nlia := zify; Z.div_mod_to_equations; Z.quot_rem_to_equations; lia.

Ltac decide_tests :=
  repeat match goal with
    | |- context [?a <? ?b] =>
        first [ replace (a <? b) with true by (symmetry; apply N.ltb_lt; nlia)
              | replace (a <? b) with false by (symmetry; apply N.ltb_ge; nlia) ]
    | |- context [?a <=? ?b] =>
        first [ replace (a <=? b) with true by (symmetry; apply N.leb_le; nlia)
              | replace (a <=? b) with false by (symmetry; apply N.leb_gt; nlia) ]
    end.

Ltac bounds :=
  repeat match goal with
    | H : _ && _ = true |- _ => apply andb_prop in H; destruct H
    | H : (_ <? _) = true |- _ => apply N.ltb_lt in H
    | H : (_ <=? _) = true |- _ => apply N.leb_le in H
    end.

Lemma bytes_of_string_of (bytes : list N) :
  Forall (fun b => b < 256) bytes -> bytes_of (string_of bytes) = bytes.
Proof.
  unfold bytes_of, string_of. rewrite list_ascii_of_string_of_list_ascii.
  induction 1 as [|b bytes Hb _ IH]; simpl; [reflexivity|].
  now rewrite N_ascii_embedding, IH.
Qed.

Lemma encode_point_bytes (c : N) :
  c < 0x110000 -> Forall (fun b => b < 256) (encode_point c).
Proof.
  intros Hc. unfold encode_point.
  destruct (N.ltb_spec c 0x80); [|destruct (N.ltb_spec c 0x800);
                                   [|destruct (N.ltb_spec c 0x10000)]];
    repeat constructor; nlia.
Qed.

Lemma decode_encode_point (c : N) (rest : list N) :
  c < 0x110000 ->
  decode (encode_point c ++ rest) = option_map (cons c) (decode rest).
Proof.
  intros Hc. unfold encode_point.
  destruct (N.ltb_spec c 0x80) as [H1|H1].
  { cbn [app decode]. now decide_tests. }
  destruct (N.ltb_spec c 0x800) as [H2|H2].
  { cbn [app decode]. unfold continuation. decide_tests. cbn [andb].
    do 2 f_equal. nlia. }
  destruct (N.ltb_spec c 0x10000) as [H3|H3].
  { cbn [app decode]. unfold continuation. cbv zeta. decide_tests. cbn [andb].
    do 2 f_equal. nlia. }
  cbn [app decode]. unfold continuation. cbv zeta. decide_tests. cbn [andb].
  do 2 f_equal. nlia.
Qed.

Lemma decode_encode (text : list N) :
  Forall (fun c => c < 0x110000) text ->
  decode (flat_map encode_point text) = Some text.
Proof.
  induction 1 as [|c text Hc _ IH]; [reflexivity|].
  cbn [flat_map]. now rewrite decode_encode_point, IH.
Qed.

Lemma decode_valid (bytes text : list N) :
  decode bytes = Some text -> Forall (fun c => c < 0x110000) text.
Proof.
  remember (List.length bytes) as n eqn:Hn. revert bytes text Hn.
  induction n as [n IH] using lt_wf_ind. intros bytes text Hn.
  assert (Hstep : forall c rest,
             (List.length rest < List.length bytes)%nat -> c < 0x110000 ->
             option_map (cons c) (decode rest) = Some text ->
             Forall (fun c => c < 0x110000) text).
  { intros c rest Hlen Hc Hdec.
    destruct (decode rest) as [text'|] eqn:Hrest; [|discriminate Hdec].
    injection Hdec as <-. constructor; [exact Hc|].
    apply (IH (List.length rest)) with (bytes := rest); [lia | reflexivity | exact Hrest]. }
  assert (Hlen : forall (b : N) rest, (List.length rest < List.length (b :: rest))%nat)
    by (intros; cbn [List.length]; lia).
  destruct bytes as [|b0 r0]; [intros [= <-]; constructor|].
  cbn [decode]. destruct (b0 <? 0x80) eqn:H0.
  { intros Hdec. eapply Hstep; [| |exact Hdec]; [cbn [List.length]; lia | bounds; nlia]. }
  destruct r0 as [|b1 r1]; [discriminate|].
  destruct ((0xC2 <=? b0) && (b0 <? 0xE0)) eqn:H2.
  { unfold continuation. destruct ((0x80 <=? b1) && (b1 <? 0xC0)) eqn:C1; [|discriminate].
    intros Hdec. eapply Hstep; [| |exact Hdec]; [cbn [List.length]; lia | bounds; nlia]. }
  destruct r1 as [|b2 r2]; [discriminate|]. cbv zeta.
  destruct ((0xE0 <=? b0) && (b0 <? 0xF0)) eqn:H3.
  { unfold continuation.
    destruct ((0x80 <=? b1) && (b1 <? 0xC0) && ((0x80 <=? b2) && (b2 <? 0xC0)) && _) eqn:C;
      [|discriminate].
    intros Hdec. eapply Hstep; [| |exact Hdec]; [cbn [List.length]; lia | bounds; nlia]. }
  destruct r2 as [|b3 r3]; [discriminate|].
  match goal with
  | |- (if ?t then _ else _) = _ -> _ => destruct t eqn:C; [|discriminate]
  end.
  intros Hdec. eapply Hstep; [| |exact Hdec]; [cbn [List.length]; lia | bounds; nlia].
Qed.

Lemma encode_ascii (text : list N) :
  Forall (fun b => b < 0x80) (flat_map encode_point text) ->
  Forall (fun c => c < 0x80) text /\ flat_map encode_point text = text.
Proof.
  induction text as [|c text IH]; cbn [flat_map]; intros Hall.
  - split; [constructor | reflexivity].
  - apply Forall_app in Hall. destruct Hall as [Hc Htext].
    assert (Hlt : c < 0x80).
    { unfold encode_point in Hc.
      destruct (N.ltb_spec c 0x80) as [H1|H1]; [exact H1|].
      destruct (N.ltb_spec c 0x800); [|destruct (N.ltb_spec c 0x10000)];
        apply Forall_inv in Hc; cbv beta in Hc; nlia. }
    destruct (IH Htext) as [Hall' Heq].
    split; [now constructor|].
    unfold encode_point at 1. apply N.ltb_lt in Hlt. rewrite Hlt.
    cbn [app]. now rewrite Heq.
Qed.

Lemma find_none_intro {A : Type} (f : A -> bool) (l : list A) :
  (forall x, In x l -> f x = false) -> find f l = None.
Proof.
  induction l as [|x l IH]; intros Hall; [reflexivity|]. cbn [find].
  rewrite (Hall x (or_introl eq_refl)). apply IH. intros y Hy. apply Hall. now right.
Qed.

(** What the tables say about the Basic Latin block and the Kelvin sign. *)
Lemma lower_ranges_checked (first last step target : N) :
  In (first, last, step, target) lower_ranges ->
  (first = 0x41 /\ last = 0x5A \/ 0x80 <= first) /\
  0x5A < target /\
  (target + (last - first) < 0x212A \/ 0x212A < target) /\
  (0x80 <= target \/ last < 0x80 \/ first = 0x212A /\ last = 0x212A) /\
  target + (last - first) < 0x110000.
Proof.
  assert (Hcheck :
    forallb (fun r : N * N * N * N =>
               let '(first, last, step, target) := r in
               (((first =? 0x41) && (last =? 0x5A)) || (0x80 <=? first)) &&
               (0x5A <? target) &&
               ((target + (last - first) <? 0x212A) || (0x212A <? target)) &&
               ((0x80 <=? target) || (last <? 0x80) ||
                ((first =? 0x212A) && (last =? 0x212A))) &&
               (target + (last - first) <? 0x110000))
      lower_ranges = true) by (vm_compute; reflexivity).
  intros Hin. rewrite forallb_forall in Hcheck. specialize (Hcheck _ Hin).
  cbv beta iota in Hcheck.
  repeat (rewrite andb_true_iff in Hcheck || rewrite orb_true_iff in Hcheck).
  rewrite ?N.eqb_eq, ?N.ltb_lt, ?N.leb_le in Hcheck.
  tauto.
Qed.

Lemma covers_bounds (c first last step target : N) :
  covers c (first, last, step, target) = true -> first <= c <= last.
Proof.
  unfold covers. intros H.
  apply andb_prop in H. destruct H as [H _].
  apply andb_prop in H. destruct H as [H1 H2].
  apply N.leb_le in H1. apply N.leb_le in H2. now split.
Qed.

Lemma lower_ranges_cover_capitals (c : N) :
  0x41 <= c <= 0x5A \/ c = 0x212A -> find (covers c) lower_ranges <> None.
Proof.
  intros Hc Hnone.
  assert (Hall : forall r, In r lower_ranges -> covers c r = false)
    by (now apply find_none).
  destruct Hc as [Hc | ->].
  - assert (Hin : In (0x41, 0x5A, 1, 0x61) lower_ranges) by (now left).
    specialize (Hall _ Hin). unfold covers in Hall.
    rewrite N.mod_1_r in Hall.
    replace (0x41 <=? c) with true in Hall by (symmetry; apply N.leb_le; lia).
    replace (c <=? 0x5A) with true in Hall by (symmetry; apply N.leb_le; lia).
    discriminate Hall.
  - assert (Hex : existsb (covers 0x212A) lower_ranges = true) by (vm_compute; reflexivity).
    apply existsb_exists in Hex. destruct Hex as [r [Hin Hr]].
    rewrite (Hall r Hin) in Hr. discriminate Hr.
Qed.

Lemma to_lower_full_cases (c : N) :
  to_lower_full c = [0x69; 0x307] /\ c = 0x130 \/
  to_lower_full c = [c] /\ ~ (0x41 <= c <= 0x5A) /\ c <> 0x212A \/
  exists first last step target,
    In (first, last, step, target) lower_ranges /\ first <= c <= last /\
    to_lower_full c = [target + (c - first)].
Proof.
  unfold to_lower_full.
  destruct (N.eqb_spec c 0x130) as [->|Hc]; [left; now split|]. right.
  destruct (find (covers c) lower_ranges) as [[[[first last] step] target]|] eqn:Hfind.
  - right. apply find_some in Hfind. destruct Hfind as [Hin Hcov].
    exists first, last, step, target.
    split; [exact Hin | split; [exact (covers_bounds _ _ _ _ _ Hcov) | reflexivity]].
  - left. split; [reflexivity|].
    split.
    + intros Hcap. apply (lower_ranges_cover_capitals c); [now left | exact Hfind].
    + intros ->. apply (lower_ranges_cover_capitals 0x212A); [now right | exact Hfind].
Qed.

Lemma to_lower_full_fixed (c : N) :
  c < 0x80 -> ~ (0x41 <= c <= 0x5A) -> to_lower_full c = [c].
Proof.
  intros Hc Hlow.
  destruct (to_lower_full_cases c)
    as [[_ ->] | [[Heq _] | [first [last [step [target [Hin [Hcov _]]]]]]]].
  - lia.
  - exact Heq.
  - destruct (lower_ranges_checked _ _ _ _ Hin) as [Hsrc _]. lia.
Qed.

Lemma to_lower_full_image (c d : N) :
  In d (to_lower_full c) -> ~ (0x41 <= d <= 0x5A) /\ d <> 0x212A.
Proof.
  destruct (to_lower_full_cases c)
    as [[-> _] | [[-> Hc] | [first [last [step [target [Hin [Hcov ->]]]]]]]].
  - intros [<- | [<- | []]]; lia.
  - intros [<- | []]. exact Hc.
  - intros [<- | []].
    destruct (lower_ranges_checked _ _ _ _ Hin) as [_ [Hup [Hk _]]]. lia.
Qed.

Lemma to_lower_full_ascii (c : N) :
  Forall (fun d => d < 0x80) (to_lower_full c) -> c < 0x80 \/ c = 0x212A.
Proof.
  destruct (to_lower_full_cases c)
    as [[-> _] | [[-> Hc] | [first [last [step [target [Hin [Hcov ->]]]]]]]];
    intros Hall.
  - apply Forall_inv_tail, Forall_inv in Hall. lia.
  - apply Forall_inv in Hall. now left.
  - apply Forall_inv in Hall. cbv beta in Hall.
    destruct (lower_ranges_checked _ _ _ _ Hin) as [_ [_ [_ [Hout _]]]]. lia.
Qed.

Lemma to_lower_full_valid (c : N) :
  c < 0x110000 -> Forall (fun d => d < 0x110000) (to_lower_full c).
Proof.
  intros Hc.
  destruct (to_lower_full_cases c)
    as [[-> _] | [[-> _] | [first [last [step [target [Hin [Hcov ->]]]]]]]].
  - repeat constructor.
  - now repeat constructor.
  - destruct (lower_ranges_checked _ _ _ _ Hin) as [_ [_ [_ [_ Hmax]]]].
    repeat constructor. lia.
Qed.

(** What lower-casing does to whole texts. *)
Lemma lower_from_fixed (preceded : bool) (text : list N) :
  Forall (fun c => c < 0x80 /\ ~ (0x41 <= c <= 0x5A)) text ->
  lower_from preceded text = text.
Proof.
  intros Hall. revert preceded.
  induction Hall as [|c text [Hc Hlow] _ IH]; intros preceded; [reflexivity|].
  cbn [lower_from].
  replace (c =? 0x3A3) with false by (symmetry; apply N.eqb_neq; lia).
  now rewrite (to_lower_full_fixed c Hc Hlow), IH.
Qed.

Lemma lower_from_image (preceded : bool) (text : list N) :
  Forall (fun d => ~ (0x41 <= d <= 0x5A) /\ d <> 0x212A) (lower_from preceded text).
Proof.
  revert preceded. induction text as [|c text IH]; intros preceded; [constructor|].
  cbn [lower_from]. apply Forall_app. split; [|apply IH].
  destruct (c =? 0x3A3).
  - constructor; [|constructor]. destruct (_ && _); lia.
  - apply Forall_forall. intros d Hd. exact (to_lower_full_image c d Hd).
Qed.

Lemma lower_from_ascii (preceded : bool) (text : list N) :
  Forall (fun d => d < 0x80) (lower_from preceded text) ->
  Forall (fun c => c < 0x80 \/ c = 0x212A) text.
Proof.
  revert preceded. induction text as [|c text IH]; intros preceded; [constructor|].
  cbn [lower_from]. intros Hall. apply Forall_app in Hall. destruct Hall as [Hc Htext].
  constructor; [|exact (IH _ Htext)].
  destruct (c =? 0x3A3).
  - apply Forall_inv in Hc. destruct (_ && _) in Hc; lia.
  - exact (to_lower_full_ascii c Hc).
Qed.

Lemma lower_from_valid (preceded : bool) (text : list N) :
  Forall (fun c => c < 0x110000) text ->
  Forall (fun c => c < 0x110000) (lower_from preceded text).
Proof.
  intros Hall. revert preceded.
  induction Hall as [|c text Hc _ IH]; intros preceded; [constructor|].
  cbn [lower_from]. apply Forall_app. split; [|apply IH].
  destruct (c =? 0x3A3).
  - constructor; [|constructor]. destruct (_ && _); lia.
  - exact (to_lower_full_valid c Hc).
Qed.

(** A lower-cased name that is plain ASCII, or becomes so when lower-cased
    once more, is left as it is by lower-casing. *)
Lemma lower_settled (s : string) :
  Forall (fun b => b < 0x80) (bytes_of (lower s)) \/
  Forall (fun b => b < 0x80) (bytes_of (lower (lower s))) ->
  lower (lower s) = lower s.
Proof.
  assert (Hcases :
            lower s = s \/
            exists text,
              decode (bytes_of s) = Some text /\
              lower s = utf8_encode (lower_from false text)).
  { unfold lower, utf8_decode.
    destruct (decode (bytes_of s)) as [text|]; [right; now exists text | now left]. }
  destruct Hcases as [Heq | [text [Hdecode Heq]]]; rewrite Heq; [intros _; exact Heq|].
  pose proof (lower_from_valid false text (decode_valid _ _ Hdecode)) as Hvalid.
  set (once := lower_from false text) in *.
  assert (Hbytes : bytes_of (utf8_encode once) = flat_map encode_point once).
  { apply bytes_of_string_of. apply Forall_flat_map.
    revert Hvalid. apply Forall_impl. exact encode_point_bytes. }
  assert (Hagain : lower (utf8_encode once) = utf8_encode (lower_from false once)).
  { unfold lower, utf8_decode. now rewrite Hbytes, (decode_encode once Hvalid). }
  rewrite Hagain. intros Hascii.
  enough (Hfixed : lower_from false once = once) by now rewrite Hfixed.
  apply lower_from_fixed.
  pose proof (lower_from_image false text) as Himage. fold once in Himage.
  assert (Hplain : Forall (fun c => c < 0x80 \/ c = 0x212A) once).
  { destruct Hascii as [Hascii | Hascii].
    - rewrite Hbytes in Hascii. apply encode_ascii in Hascii.
      destruct Hascii as [Hascii _]. revert Hascii. apply Forall_impl. now left.
    - assert (Htwice : bytes_of (utf8_encode (lower_from false once)) =
                       flat_map encode_point (lower_from false once)).
      { apply bytes_of_string_of. apply Forall_flat_map.
        generalize (lower_from_valid false once Hvalid).
        apply Forall_impl. exact encode_point_bytes. }
      rewrite Htwice in Hascii. apply encode_ascii in Hascii.
      destruct Hascii as [Hascii _]. exact (lower_from_ascii _ _ Hascii). }
  clear -Hplain Himage.
  induction once as [|c once IH]; [constructor|].
  inversion Hplain as [|? ? Hc Hrest]; inversion Himage as [|? ? [Hcap Hk] Himage'];
    subst.
  constructor; [|now apply IH]. split; [lia | exact Hcap].
Qed.
End TextFacts.

Lemma contains_In (t : list string) (x : string) :
  contains t x = true <-> In x t.
Proof.
  unfold contains. rewrite existsb_exists. split.
  - intros [y [Hy Heq]]. apply String.eqb_eq in Heq. now subst.
  - intros H. exists x. split; [assumption | apply String.eqb_refl].
Qed.

Lemma alias_is_ascii (s : string) :
  contains GEOMETRY_HEADERS s = true ->
  Forall (fun b => (b < 0x80)%N) (Unicode.bytes_of s).
Proof.
  intros Hin. apply contains_In in Hin.
  destruct Hin as [<- | [<- | [<- | []]]]; vm_compute; repeat constructor.
Qed.

(** [lower] on a few texts, as the interpreter answers: an ASCII name, the
    Kelvin sign, a capital sigma in final and in medial position, and the
    dotted capital I, which becomes two code points. *)
Lemma lower_examples :
  lower "GEOMETRY" = "geometry" /\
  lower ("W" +++ kelvin_sign +++ "T") = "wkt" /\
  Unicode.bytes_of
    (lower (Unicode.utf8_encode [0x391; 0x3A3; 0x20; 0x3A3; 0x391; 0x130]%N)) =
  Unicode.bytes_of (Unicode.utf8_encode [0x3B1; 0x3C2; 0x20; 0x3C3; 0x3B1; 0x69; 0x307]%N).
Proof. vm_compute. repeat split. Qed.

Lemma is_geometry_header_lower (header : string) :
  is_geometry_header (lower header) = is_geometry_header header.
Proof.
  unfold is_geometry_header.
  destruct (contains GEOMETRY_HEADERS (lower (lower header))) eqn:Htwice;
    destruct (contains GEOMETRY_HEADERS (lower header)) eqn:Honce;
    try reflexivity.
  - rewrite lower_settled in Htwice; [congruence|].
    right. now apply alias_is_ascii.
  - rewrite lower_settled in Htwice; [congruence|].
    left. now apply alias_is_ascii.
Qed.

Lemma lookup_key (items : list (string * json)) (k : string) :
  In k (map fst items) -> exists v, lookup k items = Some v.
Proof.
  induction items as [|[k' v'] items IH]; simpl.
  - intros [].
  - intros [Heq | Hin].
    + subst. rewrite String.eqb_refl. now exists v'.
    + destruct (String.eqb k k').
      * now exists v'.
      * now apply IH.
Qed.

(** ** decide_sql_type *)

(** C3: [decide_sql_type] is the specification's precedence list, first
    match winning: the geometry type when the lower-cased name is an alias,
    whatever the value; otherwise BOOLEAN, INTEGER, DOUBLE PRECISION and
    JSONB by the value's shape, TEXT for strings, null and arrays.  A
    boolean is never given INTEGER. *)
Theorem decide_sql_type_precedence (header : string) (value : json) :
  decide_sql_type header value = spec_type_decision header value /\
  (forall b, decide_sql_type header (JBool b) <> "INTEGER").
Proof.
  split.
  - unfold decide_sql_type, spec_type_decision, is_geometry_header, GEOMETRY_HEADERS.
    destruct (contains _ (lower header)); [reflexivity|].
    destruct value; reflexivity.
  - intros b. unfold decide_sql_type.
    destruct (is_geometry_header header); simpl; discriminate.
Qed.

(** C9: alias matching ignores case.  A name and its lower-casing get the
    same type for every value, and a name whose lower-casing is "geom",
    "geometry" or "wkt" gets the geometry type. *)
Theorem geometry_alias_case_insensitive (header : string) (value : json) :
  decide_sql_type header value = decide_sql_type (lower header) value /\
  (In (lower header) ["geom"; "geometry"; "wkt"] ->
   decide_sql_type header value = "GEOMETRY(GEOMETRY, 3857)").
Proof.
  split.
  - unfold decide_sql_type. now rewrite is_geometry_header_lower.
  - intros Hin. unfold decide_sql_type, is_geometry_header.
    apply (contains_In GEOMETRY_HEADERS) in Hin. now rewrite Hin.
Qed.

Lemma geometry_alias_case_insensitive_witness :
  In (lower "GEOMETRY") ["geom"; "geometry"; "wkt"] /\
  In (lower ("W" +++ kelvin_sign +++ "T")) ["geom"; "geometry"; "wkt"] /\
  decide_sql_type "GEOMETRY" (JInt 3) = "GEOMETRY(GEOMETRY, 3857)" /\
  decide_sql_type "Geom" (JBool true) = "GEOMETRY(GEOMETRY, 3857)" /\
  decide_sql_type "wkt" JNone = "GEOMETRY(GEOMETRY, 3857)" /\
  decide_sql_type ("W" +++ kelvin_sign +++ "T") (JInt 1) = "GEOMETRY(GEOMETRY, 3857)".
Proof.
  split; [vm_compute; auto|].
  split; [vm_compute; auto|].
  split; [|split; [|split]].
  - apply (proj2 (geometry_alias_case_insensitive "GEOMETRY" (JInt 3))).
    vm_compute; auto.
  - apply (proj2 (geometry_alias_case_insensitive "Geom" (JBool true))).
    vm_compute; auto.
  - apply (proj2 (geometry_alias_case_insensitive "wkt" JNone)).
    vm_compute; auto.
  - apply (proj2 (geometry_alias_case_insensitive ("W" +++ kelvin_sign +++ "T") (JInt 1))).
    vm_compute; auto.
Defined.

(** ** The composing loops *)

Lemma append_columns_spec (items : list (string * json)) (ks acc : list string) :
  (forall k, In k ks -> exists v, lookup k items = Some v) ->
  exists cols,
    append_columns (JDict items) ks acc = inr (acc ++ cols) /\
    Forall2 (fun k c => exists v, lookup k items = Some v /\
                                  c = column k (decide_sql_type k v)) ks cols.
Proof.
  revert acc. induction ks as [|k ks IH]; intros acc Hks.
  - exists []. split; [simpl; now rewrite app_nil_r | constructor].
  - destruct (Hks k (or_introl eq_refl)) as [v Hv].
    destruct (IH (acc ++ [column k (decide_sql_type k v)])) as [cols [Hrun Hcols]].
    { intros k' Hk'. apply Hks. now right. }
    exists (column k (decide_sql_type k v) :: cols). split.
    + simpl. rewrite Hv. rewrite Hrun. now rewrite <- app_assoc.
    + constructor; [now exists v | assumption].
Qed.

Lemma append_placeholders_spec (ks placeholders headers : list string) :
  append_placeholders ks placeholders headers =
  (placeholders ++ map placeholder_for ks, headers ++ ks).
Proof.
  revert placeholders headers.
  induction ks as [|k ks IH]; intros placeholders headers; simpl.
  - now rewrite !app_nil_r.
  - rewrite IH. unfold placeholder_for.
    destruct (is_geometry_header k); now rewrite <- !app_assoc.
Qed.

Lemma tuple_of_present (items : list (string * json)) (ks : list string) :
  (forall k, In k ks -> exists v, lookup k items = Some v) ->
  exists data,
    tuple_of (JDict items) ks = inr data /\
    Forall2 (fun k v => lookup k items = Some v) ks data.
Proof.
  induction ks as [|k ks IH]; intros Hks.
  - exists []. split; [reflexivity | constructor].
  - destruct (Hks k (or_introl eq_refl)) as [v Hv].
    destruct IH as [data [Hrun Hdata]].
    { intros k' Hk'. apply Hks. now right. }
    exists (v :: data). split.
    + simpl. rewrite Hv. now rewrite Hrun.
    + now constructor.
Qed.

(** ** Stepping through a run *)

Lemma bind_lift_inr {A B : Type} (a : A) (k : A -> run B) (tr : trace) :
  bind (lift (inr a)) k tr = k a tr.
Proof. reflexivity. Qed.

Lemma bind_lift_inl {A B : Type} (e : exn) (k : A -> run B) (tr : trace) :
  bind (lift (inl e)) k tr = (tr, inl e).
Proof. reflexivity. Qed.

Lemma bind_perform {B : Type} (db : driver) (c : effect) (k : unit -> run B) (tr : trace) :
  bind (perform db c) k tr =
  if db tr c then k tt (tr ++ [c]) else (tr, inl (DatabaseError c)).
Proof. unfold bind, perform. now destruct (db tr c). Qed.

Lemma bind_perform_reliable {B : Type} (c : effect) (k : unit -> run B) (tr : trace) :
  bind (perform reliable c) k tr = k tt (tr ++ [c]).
Proof. reflexivity. Qed.

Lemma existsb_find {A : Type} (p : A -> bool) (l : list A) :
  existsb p l = match find p l with Some _ => true | None => false end.
Proof.
  induction l as [|x l IH]; simpl; [reflexivity|].
  destruct (p x); [reflexivity | exact IH].
Qed.

(** What [create_table_from_json] does on a driver that never raises, for
    a dataset whose first element is a dict. *)
Lemma create_table_reliable (items : list (string * json)) (rest : list json)
    (table_name : string) (cols : list string) :
  append_columns (JDict items) (map fst items) [surrogate_key] = inr cols ->
  create_table_from_json reliable (JList (JDict items :: rest)) table_name [] =
  (Connect :: Cursor :: Execute (drop_sql table_name) None ::
   Execute (create_sql table_name cols) None ::
   match find is_geometry_header (map fst items) with
   | Some spatial_column =>
       [Execute (index_sql table_name spatial_column) None;
        Commit; CursorClose; ConnectionClose; Print (spatial_message table_name)]
   | None => [Print (plain_message table_name)]
   end, inr tt).
Proof.
  intros Hcols. unfold create_table_from_json.
  simpl getitem0. rewrite bind_lift_inr.
  simpl keys. rewrite bind_lift_inr.
  change ([] ++ [surrogate_key]) with [surrogate_key].
  rewrite Hcols, bind_lift_inr.
  rewrite !bind_perform_reliable, bind_lift_inr.
  rewrite existsb_find. unfold next_geometry_header.
  destruct (find is_geometry_header (map fst items)) as [g|] eqn:Hfind.
  - cbv iota. rewrite bind_lift_inr, Hfind, bind_lift_inr.
    rewrite !bind_perform_reliable. reflexivity.
  - reflexivity.
Qed.

Lemma bind_assoc {A B C : Type} (m : run A) (k : A -> run B) (h : B -> run C)
    (tr : trace) :
  bind (bind m k) h tr = bind m (fun x => bind (k x) h) tr.
Proof.
  unfold bind. destruct (m tr) as [tr' [e|a]]; reflexivity.
Qed.

Lemma extends_ret {A : Type} (a : A) : extends (ret a).
Proof. intros tr. exists []. simpl. now rewrite app_nil_r. Qed.

Lemma extends_raise {A : Type} (e : exn) : extends (@raise A e).
Proof. intros tr. exists []. simpl. now rewrite app_nil_r. Qed.

Lemma extends_lift {A : Type} (r : exn + A) : extends (lift r).
Proof. destruct r; [apply extends_raise | apply extends_ret]. Qed.

Lemma extends_perform (db : driver) (c : effect) : extends (perform db c).
Proof.
  intros tr. unfold perform. destruct (db tr c).
  - now exists [c].
  - exists []. simpl. now rewrite app_nil_r.
Qed.

Lemma extends_print (line : string) : extends (print line).
Proof. intros tr. now exists [Print line]. Qed.

Lemma extends_bind {A B : Type} (m : run A) (k : A -> run B) :
  extends m -> (forall a, extends (k a)) -> extends (bind m k).
Proof.
  intros Hm Hk tr. unfold bind.
  destruct (Hm tr) as [tail Htail].
  destruct (m tr) as [tr' [e|a]]; simpl in Htail; subst tr'.
  - now exists tail.
  - destruct (Hk a (tr ++ tail)) as [tail' Htail'].
    exists (tail ++ tail'). now rewrite Htail', app_assoc.
Qed.

Create HintDb run_extends.
#[local] Hint Resolve extends_ret extends_raise extends_lift extends_perform
  extends_print extends_bind : run_extends.

Lemma extends_insert_entries (db : driver) (insert : string) (headers : list string)
    (entries : list json) :
  extends (insert_entries db insert headers entries).
Proof.
  induction entries as [|entry entries IH]; simpl; auto 10 with run_extends.
Qed.

#[local] Hint Resolve extends_insert_entries : run_extends.

(** ** C1 *)

(** What [insert_data_from_json] does up to the first record's insert, on a
    driver that never raises. *)
Lemma insert_first_reliable (items : list (string * json)) (rest : list json)
    (table_name : string) :
  exists data tail,
    Forall2 (fun k v => lookup k items = Some v) (map fst items) data /\
    fst (insert_data_from_json reliable (JList (JDict items :: rest)) table_name []) =
    Connect :: Cursor ::
    Execute (insert_statement table_name (map fst items)) (Some data) :: tail.
Proof.
  destruct (tuple_of_present items (map fst items) (lookup_key items))
    as [data [Hdata Hvals]].
  exists data.
  unfold insert_data_from_json.
  simpl getitem0. rewrite bind_lift_inr.
  simpl keys. rewrite bind_lift_inr.
  rewrite append_placeholders_spec. simpl app.
  rewrite !bind_perform_reliable.
  simpl iter. rewrite bind_lift_inr.
  simpl insert_entries. rewrite Hdata.
  rewrite bind_assoc, bind_lift_inr, bind_assoc, bind_perform_reliable.
  simpl app. fold (insert_statement table_name (map fst items)).
  match goal with
  | |- context [fst (?m ?tr)] =>
      assert (Hext : extends m) by auto 20 with run_extends;
      destruct (Hext tr) as [tail Htail]
  end.
  exists tail. split; [exact Hvals | exact Htail].
Qed.

(** C1: for a dataset whose first record has the keys [ks], in that order,
    the column list of the create statement is the surrogate key followed
    by one column per key, in order, each the key and its decided type, and
    the column list of the insert statement is exactly [ks], with no
    surrogate key.  Both statements are the ones the runs execute. *)
Theorem column_order_invariant (items : list (string * json)) (rest : list json)
    (table_name : string) :
  let json_data := JList (JDict items :: rest) in
  let ks := map fst items in
  exists cols data tail tail',
    append_columns (JDict items) ks ([] ++ [surrogate_key]) = inr (surrogate_key :: cols) /\
    Forall2 (fun k c => exists v, lookup k items = Some v /\
                                  c = column k (decide_sql_type k v)) ks cols /\
    snd (append_placeholders ks [] []) = ks /\
    Forall2 (fun k v => lookup k items = Some v) ks data /\
    fst (create_table_from_json reliable json_data table_name []) =
      Connect :: Cursor :: Execute (drop_sql table_name) None ::
      Execute (create_sql table_name (surrogate_key :: cols)) None :: tail /\
    fst (insert_data_from_json reliable json_data table_name []) =
      Connect :: Cursor ::
      Execute (insert_sql table_name ks (map placeholder_for ks)) (Some data) :: tail'.
Proof.
  intros json_data ks.
  destruct (append_columns_spec items ks [surrogate_key] (lookup_key items))
    as [cols [Hcols Hforall]].
  destruct (insert_first_reliable items rest table_name) as [data [tail' [Hvals Hins]]].
  exists cols, data. eexists. exists tail'.
  split; [exact Hcols|].
  split; [exact Hforall|].
  split; [now rewrite append_placeholders_spec|].
  split; [exact Hvals|].
  split; [|exact Hins].
  unfold json_data. rewrite (create_table_reliable items rest table_name _ Hcols).
  reflexivity.
Qed.

(** ** The insert loop on any driver *)

Lemma insert_entries_shape (db : driver) (insert : string) (headers : list string)
    (entries : list json) (tr : trace) :
  exists datas,
    fst (insert_entries db insert headers entries tr) =
      tr ++ map (insert_effect insert) datas /\
    Forall2 (fun entry data => tuple_of entry headers = inr data)
      (firstn (List.length datas) entries) datas /\
    match snd (insert_entries db insert headers entries tr) with
    | inr _ => List.length datas = List.length entries
    | inl _ => List.length datas < List.length entries
    end.
Proof.
  revert tr. induction entries as [|entry entries IH]; intros tr.
  - exists []. simpl. rewrite app_nil_r. repeat split. constructor.
  - simpl insert_entries.
    destruct (tuple_of entry headers) as [e|data] eqn:Htuple.
    + exists []. rewrite bind_lift_inl. simpl. rewrite app_nil_r.
      repeat split; [constructor | lia].
    + rewrite bind_lift_inr, bind_perform.
      destruct (db tr (Execute insert (Some data))).
      * destruct (IH (tr ++ [Execute insert (Some data)])) as [datas [Htr [Hdatas Hres]]].
        exists (data :: datas). rewrite Htr, <- app_assoc. simpl.
        repeat split.
        -- now constructor.
        -- destruct (snd _); lia.
      * exists []. simpl. rewrite app_nil_r.
        repeat split; [constructor | lia].
Qed.

(** Every run of [insert_data_from_json] ends in one of the three ways. *)
Lemma insert_data_outcome (db : driver) (json_data : json) (table_name : string) :
  load_outcome table_name json_data (insert_data_from_json db json_data table_name []).
Proof.
  unfold insert_data_from_json.
  destruct (getitem0 json_data) as [e|first_json_entry] eqn:Hfirst.
  { rewrite bind_lift_inl. constructor. now left. }
  rewrite bind_lift_inr.
  destruct (keys first_json_entry) as [e|ks] eqn:Hkeys.
  { rewrite bind_lift_inl. constructor. now left. }
  rewrite bind_lift_inr.
  assert (Hshape : exists items rest,
             json_data = JList (JDict items :: rest) /\ ks = map fst items).
  { destruct first_json_entry; try discriminate Hkeys.
    injection Hkeys as <-.
    destruct json_data as [| | | |s|l|]; try discriminate Hfirst.
    - destruct s; discriminate Hfirst.
    - destruct l as [|x rest]; [discriminate Hfirst|].
      injection Hfirst as ->. now exists items, rest. }
  destruct Hshape as [items [rest [-> ->]]].
  rewrite append_placeholders_spec. simpl app.
  fold (insert_statement table_name (map fst items)).
  rewrite bind_perform.
  destruct (db [] Connect); [|constructor; now left].
  rewrite bind_perform.
  destruct (db ([] ++ [Connect]) Cursor); [|constructor; now right].
  simpl iter. rewrite bind_lift_inr. simpl app.
  set (insert := insert_statement table_name (map fst items)).
  set (entries := JDict items :: rest).
  destruct (insert_entries_shape db insert (map fst items) entries [Connect; Cursor])
    as [datas [Htr [Hdatas Hres]]].
  unfold bind at 1.
  destruct (insert_entries db insert (map fst items) entries [Connect; Cursor])
    as [tr [e|[]]]; cbn [fst snd] in Htr, Hres; subst tr; simpl app.
  { now apply (load_aborted _ _ items rest datas e). }
  rewrite bind_perform.
  destruct (db _ Commit);
    [|now apply (load_aborted _ _ items rest datas (DatabaseError Commit))].
  rewrite Hres, firstn_all in Hdatas. subst entries.
  rewrite bind_perform.
  destruct (db _ CursorClose).
  2:{ simpl app.
      apply (load_committed _ _ items rest datas [] (closing table_name));
        [reflexivity | assumption | reflexivity | split; discriminate]. }
  rewrite bind_perform.
  destruct (db _ ConnectionClose).
  2:{ simpl app. rewrite <- !app_assoc. simpl app.
      apply (load_committed _ _ items rest datas [CursorClose]
               [ConnectionClose; Print (filled_message table_name)]);
        [reflexivity | assumption | reflexivity | split; discriminate]. }
  unfold print. simpl app. rewrite <- !app_assoc. simpl app.
  apply (load_committed _ _ items rest datas (closing table_name) []);
    [reflexivity | assumption | reflexivity | split; reflexivity].
Qed.

Lemma Forall2_In_right {A B : Type} (P : A -> B -> Prop) (l : list A) (l' : list B)
    (y : B) :
  Forall2 P l l' -> In y l' -> exists x, In x l /\ P x y.
Proof.
  induction 1 as [|x y' l l' Hxy _ IH]; simpl.
  - intros [].
  - intros [<- | Hin].
    + exists x. auto.
    + destruct (IH Hin) as [x' [Hx' HP]]. exists x'. auto.
Qed.

Lemma In_firstn {A : Type} (n : nat) (l : list A) (x : A) :
  In x (firstn n l) -> In x l.
Proof.
  intros Hin. rewrite <- (firstn_skipn n l). apply in_or_app. now left.
Qed.

Lemma closing_no_execute (table_name : string) (done todo : trace)
    (q : string) (vars : option (list json)) :
  closing table_name = done ++ todo -> ~ In (Execute q vars) done.
Proof.
  intros Hsplit Hin.
  assert (Hall : In (Execute q vars) (closing table_name)).
  { rewrite Hsplit. apply in_or_app. now left. }
  simpl in Hall. intuition discriminate.
Qed.

(** Every statement in the trace of a load is the insert statement of the
    table and the first record's keys, with one record's tuple bound. *)
Lemma load_outcome_execute (table_name : string) (json_data : json)
    (tr : trace) (res : exn + unit) (q : string) (vars : option (list json)) :
  load_outcome table_name json_data (tr, res) ->
  In (Execute q vars) tr ->
  exists items rest,
    json_data = JList (JDict items :: rest) /\
    q = insert_statement table_name (map fst items) /\
    exists entry data,
      In entry (JDict items :: rest) /\
      tuple_of entry (map fst items) = inr data /\
      vars = Some data.
Proof.
  intros Hout Hin.
  assert (Hmap : forall (items : list (string * json)) datas,
             In (Execute q vars)
                (map (insert_effect (insert_statement table_name (map fst items))) datas) ->
             q = insert_statement table_name (map fst items) /\
             exists data, In data datas /\ vars = Some data).
  { intros items datas Hq.
    apply in_map_iff in Hq. destruct Hq as [data [Hq Hdata]].
    injection Hq as <- <-. split; [reflexivity | now exists data]. }
  inversion Hout as [tr0 e Htr | items rest datas e Heq Hdatas
                     | items rest datas done todo res0 Heq Hdatas Hclosing Hres];
    subst.
  - destruct Htr as [-> | ->]; simpl in Hin; intuition discriminate.
  - destruct Hin as [Hin | [Hin | Hin]]; try discriminate Hin.
    destruct (Hmap items datas Hin) as [Hq [data [Hdata Hvars]]].
    destruct (Forall2_In_right _ _ _ _ Hdatas Hdata) as [entry [Hentry Htuple]].
    exists items, rest. split; [reflexivity | split; [exact Hq|]].
    exists entry, data. split; [now apply In_firstn in Hentry | now split].
  - destruct Hin as [Hin | [Hin | Hin]]; try discriminate Hin.
    apply in_app_or in Hin. destruct Hin as [Hin | [Hin | Hin]].
    + destruct (Hmap items datas Hin) as [Hq [data [Hdata Hvars]]].
      destruct (Forall2_In_right _ _ _ _ Hdatas Hdata) as [entry [Hentry Htuple]].
      exists items, rest. split; [reflexivity | split; [exact Hq|]].
      now exists entry, data.
    + discriminate Hin.
    + now apply (closing_no_execute table_name done todo q vars) in Hin.
Qed.

(** ** C5 *)

(** C5: on every dataset and every driver, the text of each statement
    [insert_data_from_json] executes is [insert_statement] of the table name
    and the first record's keys; a run on any other dataset whose first
    record has the same keys executes the same text, whatever the values,
    the other records and the driver's answers; and each record's values
    reach the driver as the bound parameters of the call, next to the text
    and not inside it. *)
Theorem insert_statement_noninterference (db : driver) (json_data : json)
    (table_name : string) (q : string) (vars : option (list json)) :
  In (Execute q vars) (fst (insert_data_from_json db json_data table_name [])) ->
  exists items rest,
    json_data = JList (JDict items :: rest) /\
    q = insert_statement table_name (map fst items) /\
    (exists entry data,
        In entry (JDict items :: rest) /\
        tuple_of entry (map fst items) = inr data /\
        vars = Some data) /\
    (forall db' items' rest' q' vars',
        map fst items' = map fst items ->
        In (Execute q' vars')
           (fst (insert_data_from_json db' (JList (JDict items' :: rest')) table_name [])) ->
        q' = q).
Proof.
  intros Hin.
  pose proof (insert_data_outcome db json_data table_name) as Hout.
  destruct (insert_data_from_json db json_data table_name []) as [tr res].
  destruct (load_outcome_execute _ _ _ _ _ _ Hout Hin)
    as [items [rest [Hshape [Hq Hvars]]]].
  exists items, rest.
  split; [exact Hshape | split; [exact Hq | split; [exact Hvars|]]].
  intros db' items' rest' q' vars' Hkeys Hin'.
  pose proof (insert_data_outcome db' (JList (JDict items' :: rest')) table_name) as Hout'.
  destruct (insert_data_from_json db' (JList (JDict items' :: rest')) table_name [])
    as [tr' res'].
  destruct (load_outcome_execute _ _ _ _ _ _ Hout' Hin')
    as [items0 [rest0 [Hshape' [Hq' _]]]].
  injection Hshape' as <- _.
  now rewrite Hq, Hq', Hkeys.
Qed.

Lemma insert_statement_noninterference_witness :
  let json_data := JList [JDict [("name", JStr "O'Brien; DROP TABLE x;")]] in
  let q := insert_statement "people" ["name"] in
  In (Execute q (Some [JStr "O'Brien; DROP TABLE x;"]))
     (fst (insert_data_from_json reliable json_data "people" [])) /\
  exists items rest,
    json_data = JList (JDict items :: rest) /\
    q = insert_statement "people" (map fst items) /\
    (exists entry data,
        In entry (JDict items :: rest) /\
        tuple_of entry (map fst items) = inr data /\
        Some [JStr "O'Brien; DROP TABLE x;"] = Some data) /\
    (forall db' items' rest' q' vars',
        map fst items' = map fst items ->
        In (Execute q' vars')
           (fst (insert_data_from_json db' (JList (JDict items' :: rest')) "people" [])) ->
        q' = q).
Proof.
  intros json_data q.
  assert (Hin : In (Execute q (Some [JStr "O'Brien; DROP TABLE x;"]))
                   (fst (insert_data_from_json reliable json_data "people" []))).
  { vm_compute. right. right. left. reflexivity. }
  split; [exact Hin|].
  exact (insert_statement_noninterference reliable json_data "people" q
           (Some [JStr "O'Brien; DROP TABLE x;"]) Hin).
Defined.

(** ** The insert loop on a driver that never raises *)

Lemma insert_entries_reliable (insert : string) (headers : list string)
    (entries : list json) (datas : list (list json)) (tr : trace) :
  Forall2 (fun entry data => tuple_of entry headers = inr data) entries datas ->
  insert_entries reliable insert headers entries tr =
  (tr ++ map (insert_effect insert) datas, inr tt).
Proof.
  intros Hall. revert tr.
  induction Hall as [|entry data entries datas Htuple _ IH]; intros tr; simpl.
  - unfold ret. now rewrite app_nil_r.
  - rewrite Htuple, bind_lift_inr, bind_perform_reliable, IH.
    now rewrite <- app_assoc.
Qed.

Lemma tuple_of_getitem (entry : json) (headers : list string) (data : list json) :
  tuple_of entry headers = inr data ->
  Forall2 (fun k v => getitem entry k = inr v) headers data.
Proof.
  revert data. induction headers as [|k headers IH]; intros data; simpl.
  - intros [= <-]. constructor.
  - destruct (getitem entry k) as [e|v] eqn:Hget; [discriminate|].
    destruct (tuple_of entry headers) as [e|vs]; [discriminate|].
    intros [= <-]. constructor; [exact Hget | now apply IH].
Qed.

Lemma tuples_of_complete_records (ks : list string) (entries : list json) :
  Forall (fun entry => exists its, entry = JDict its /\ incl ks (map fst its)) entries ->
  exists datas,
    Forall2 (fun entry data => tuple_of entry ks = inr data) entries datas.
Proof.
  induction 1 as [|entry entries [its [-> Hincl]] _ [datas IH]].
  - exists []. constructor.
  - destruct (tuple_of_present its ks) as [data [Hdata _]].
    { intros k Hk. apply lookup_key. now apply Hincl. }
    exists (data :: datas). now constructor.
Qed.

Lemma plain_placeholders (ks : list string) :
  existsb is_geometry_header ks = false ->
  map placeholder_for ks = map (fun _ => "%s") ks.
Proof.
  induction ks as [|k ks IH]; simpl; [reflexivity|].
  intros Hnone. apply orb_false_iff in Hnone. destruct Hnone as [Hk Hks].
  unfold placeholder_for at 1. rewrite Hk. now rewrite IH.
Qed.

(** ** Reading traces *)

Lemma executed_inserts_app (tr tr' : trace) :
  executed_inserts (tr ++ tr') = executed_inserts tr ++ executed_inserts tr'.
Proof.
  induction tr as [|c tr IH]; simpl; [reflexivity|].
  destruct c as [| |q [vars|]| | | |]; simpl; now rewrite IH.
Qed.

Lemma executed_inserts_map (insert : string) (datas : list (list json)) :
  executed_inserts (map (insert_effect insert) datas) = map (pair insert) datas.
Proof.
  induction datas as [|data datas IH]; simpl; [reflexivity | now rewrite IH].
Qed.

Lemma commits_app (tr tr' : trace) : commits (tr ++ tr') = commits tr + commits tr'.
Proof. unfold commits. now rewrite filter_app, length_app. Qed.

Lemma commits_map (insert : string) (datas : list (list json)) :
  commits (map (insert_effect insert) datas) = 0.
Proof.
  induction datas as [|data datas IH]; [reflexivity | exact IH].
Qed.

Lemma replay_app (tr tr' : trace) (st : Table.state) :
  Table.replay (tr ++ tr') st = Table.replay tr' (Table.replay tr st).
Proof. apply fold_left_app. Qed.

Lemma replay_inserts (insert : string) (datas : list (list json)) (st : Table.state) :
  Table.replay (map (insert_effect insert) datas) st =
  {| Table.committed := Table.committed st;
     Table.pending := Table.pending st ++ datas |}.
Proof.
  revert st. induction datas as [|data datas IH]; intros st.
  - simpl. rewrite app_nil_r. now destruct st.
  - change (Table.replay (map (insert_effect insert) (data :: datas)) st)
      with (Table.replay (map (insert_effect insert) datas)
              (Table.step st (insert_effect insert data))).
    rewrite IH. simpl. now rewrite <- app_assoc.
Qed.

Lemma replay_without_commit (tr : trace) (st : Table.state) :
  ~ In Commit tr ->
  Table.committed (Table.replay tr st) = Table.committed st.
Proof.
  revert st. induction tr as [|c tr IH]; intros st Hno; [reflexivity|].
  change (Table.replay (c :: tr) st) with (Table.replay tr (Table.step st c)).
  rewrite IH.
  - destruct c as [| |q [vars|]| | | |]; try reflexivity.
    exfalso. apply Hno. now left.
  - intros Hin. apply Hno. now right.
Qed.

(** ** C8 *)

(** C8, as stated, fails: the dataset [[{"a": 1}, {}]] has two records and
    no geometry field, and the load executes one insert, then raises
    [KeyError] on the second record and never commits. *)
Lemma insert_round_trip_counterexample :
  let entries := [JDict [("a", JInt 1)]; JDict []] in
  let r := insert_data_from_json reliable (JList entries) "t" [] in
  existsb is_geometry_header ["a"] = false /\
  snd r = inl (KeyError (JStr "a")) /\
  List.length (executed_inserts (fst r)) = 1 /\
  List.length (executed_inserts (fst r)) <> List.length entries /\
  ~ In Commit (fst r).
Proof.
  vm_compute. repeat split; try discriminate.
  intros H. repeat (destruct H as [H | H]; [discriminate H|]). exact H.
Qed.

(** C8, amended: for a dataset of N >= 1 records, none of whose first-record
    keys is a geometry alias, and in which every record is an object that
    has every key of the first record, on a driver that never raises,
    [insert_data_from_json] executes exactly N inserts, all with the same
    statement whose placeholders are plain parameter markers; the i-th
    carries the i-th record's values for the first record's keys, in that
    order, and nothing for any other key; one commit follows, after which
    the table holds the N tuples as rows. *)
Theorem insert_round_trip (items : list (string * json)) (rest : list json)
    (table_name : string) (rows : list (list json)) :
  let entries := JDict items :: rest in
  let ks := map fst items in
  let insert := insert_sql table_name ks (map (fun _ => "%s") ks) in
  let r := insert_data_from_json reliable (JList entries) table_name [] in
  existsb is_geometry_header ks = false ->
  Forall (fun entry => exists its, entry = JDict its /\ incl ks (map fst its)) rest ->
  exists datas,
    Forall2 (fun entry data => Forall2 (fun k v => getitem entry k = inr v) ks data)
      entries datas /\
    r = (Connect :: Cursor :: map (insert_effect insert) datas ++
         Commit :: closing table_name, inr tt) /\
    executed_inserts (fst r) = map (pair insert) datas /\
    List.length (executed_inserts (fst r)) = List.length entries /\
    Table.committed
      (Table.replay (fst r) {| Table.committed := rows; Table.pending := [] |}) =
    rows ++ datas.
Proof.
  intros entries ks insert r Hplain Hrest.
  destruct (tuples_of_complete_records ks entries) as [datas Hdatas].
  { constructor; [|exact Hrest]. exists items. split; [reflexivity | apply incl_refl]. }
  assert (Hrun : r = (Connect :: Cursor :: map (insert_effect insert) datas ++
                      Commit :: closing table_name, inr tt)).
  { unfold r, insert_data_from_json.
    simpl getitem0. rewrite bind_lift_inr.
    simpl keys. rewrite bind_lift_inr.
    rewrite append_placeholders_spec. simpl app.
    rewrite !bind_perform_reliable.
    simpl iter. rewrite bind_lift_inr.
    fold ks. rewrite (plain_placeholders ks Hplain). fold insert. fold entries.
    unfold bind at 1.
    rewrite (insert_entries_reliable insert ks entries datas _ Hdatas).
    rewrite !bind_perform_reliable. unfold print.
    simpl app. rewrite <- !app_assoc. reflexivity. }
  exists datas.
  assert (Hins : executed_inserts (fst r) = map (pair insert) datas).
  { rewrite Hrun. cbn [fst executed_inserts].
    rewrite executed_inserts_app, executed_inserts_map. simpl. apply app_nil_r. }
  split; [|split; [exact Hrun | split; [exact Hins | split]]].
  - clear -Hdatas. induction Hdatas as [|entry data es ds Htuple _ IH]; constructor.
    + now apply tuple_of_getitem.
    + exact IH.
  - rewrite Hins, length_map. symmetry. exact (Forall2_length Hdatas).
  - rewrite Hrun. cbn [fst].
    change (Connect :: Cursor :: map (insert_effect insert) datas ++
            Commit :: closing table_name)
      with ([Connect; Cursor] ++ map (insert_effect insert) datas ++
            Commit :: closing table_name).
    rewrite !replay_app, replay_inserts. reflexivity.
Qed.

Lemma insert_round_trip_witness :
  let items := [("name", JStr "X"); ("count", JInt 3)] in
  let later := JDict [("count", JInt 4); ("extra", JNone); ("name", JStr "Y")] in
  let insert := insert_sql "t" ["name"; "count"] ["%s"; "%s"] in
  existsb is_geometry_header ["name"; "count"] = false /\
  exists datas,
    Forall2 (fun entry data =>
               Forall2 (fun k v => getitem entry k = inr v) ["name"; "count"] data)
      [JDict items; later] datas /\
    insert_data_from_json reliable (JList [JDict items; later]) "t" [] =
      (Connect :: Cursor :: map (insert_effect insert) datas ++
       Commit :: closing "t", inr tt) /\
    executed_inserts (fst (insert_data_from_json reliable (JList [JDict items; later]) "t" []))
      = map (pair insert) datas /\
    List.length
      (executed_inserts (fst (insert_data_from_json reliable (JList [JDict items; later]) "t" [])))
      = 2 /\
    Table.committed
      (Table.replay (fst (insert_data_from_json reliable (JList [JDict items; later]) "t" []))
         {| Table.committed := []; Table.pending := [] |}) =
    [] ++ datas.
Proof.
  intros items later insert.
  split; [reflexivity|].
  apply (insert_round_trip items [later] "t" []).
  - reflexivity.
  - constructor; [|constructor].
    exists [("count", JInt 4); ("extra", JNone); ("name", JStr "Y")].
    split; [reflexivity|].
    intros k Hk. simpl in Hk. simpl.
    destruct Hk as [<- | [<- | []]]; auto.
Defined.

(** ** C10 *)

Lemma closing_prefixes (table_name : string) (done todo : trace) :
  closing table_name = done ++ todo ->
  commits done = 0 /\ executed_inserts done = [].
Proof.
  unfold closing.
  destruct done as [|c1 [|c2 [|c3 [|c4 done]]]]; simpl; intros Heq.
  - now split.
  - injection Heq as <- _. now split.
  - injection Heq as <- <- _. now split.
  - injection Heq as <- <- <- _. now split.
  - destruct todo; discriminate Heq.
Qed.

Lemma commits_zero_not_In (tr : trace) : commits tr = 0 -> ~ In Commit tr.
Proof.
  induction tr as [|c tr IH]; simpl; [tauto|].
  intros Hzero [-> | Hin].
  - discriminate Hzero.
  - apply IH; [|exact Hin].
    unfold commits in *. simpl in Hzero. destruct (is_commit c); [discriminate | exact Hzero].
Qed.

(** C10: a load commits at most once, and exactly once when it returns.
    A commit in the trace has every record's insert before it and no
    insert after it.  So when fewer inserts than records were executed
    (a record's tuple could not be built, or the driver raised on an
    insert) there is no commit, and without a commit the committed rows of
    the table are the ones it had before the run. *)
Theorem load_commits_once_after_all_inserts (db : driver) (json_data : json)
    (table_name : string) (st : Table.state) :
  let r := insert_data_from_json db json_data table_name [] in
  commits (fst r) <= 1 /\
  (snd r = inr tt -> commits (fst r) = 1) /\
  (In Commit (fst r) ->
   exists items rest datas done,
     json_data = JList (JDict items :: rest) /\
     Forall2 (fun entry data => tuple_of entry (map fst items) = inr data)
       (JDict items :: rest) datas /\
     fst r = Connect :: Cursor ::
             map (insert_effect (insert_statement table_name (map fst items))) datas ++
             Commit :: done /\
     commits done = 0 /\ executed_inserts done = []) /\
  (forall entries,
     json_data = JList entries ->
     List.length (executed_inserts (fst r)) < List.length entries ->
     ~ In Commit (fst r)) /\
  (~ In Commit (fst r) ->
   Table.committed (Table.replay (fst r) st) = Table.committed st).
Proof.
  intros r.
  pose proof (insert_data_outcome db json_data table_name) as Hout.
  fold r in Hout. destruct r as [tr res]. cbn [fst snd].
  assert (Hnone : forall insert datas,
             commits (Connect :: Cursor :: map (insert_effect insert) datas) = 0).
  { intros insert datas.
    change (commits ([Connect; Cursor] ++ map (insert_effect insert) datas) = 0).
    now rewrite commits_app, commits_map. }
  assert (Hone : forall insert datas done,
             commits done = 0 ->
             commits (Connect :: Cursor :: map (insert_effect insert) datas ++
                      Commit :: done) = 1).
  { intros insert datas done Hdone.
    change (commits ([Connect; Cursor] ++ map (insert_effect insert) datas ++
                     [Commit] ++ done) = 1).
    now rewrite !commits_app, commits_map, Hdone. }
  inversion Hout as [tr0 e Htr | items rest datas e Heq Hdatas
                     | items rest datas done todo res0 Heq Hdatas Hclosing Hres];
    subst.
  - assert (Hzero : commits tr = 0) by (destruct Htr as [-> | ->]; reflexivity).
    pose proof (commits_zero_not_In tr Hzero) as Hno.
    repeat split.
    + lia.
    + discriminate.
    + intros Hin. contradiction.
    + intros _ _ _. exact Hno.
    + intros _. now apply replay_without_commit.
  - pose proof (commits_zero_not_In _ (Hnone (insert_statement table_name (map fst items))
                                         datas)) as Hno.
    repeat split.
    + rewrite Hnone. lia.
    + discriminate.
    + intros Hin. contradiction.
    + intros _ _ _. exact Hno.
    + intros _. now apply replay_without_commit.
  - destruct (closing_prefixes table_name done todo Hclosing) as [Hdone Hdone'].
    repeat split.
    + rewrite (Hone _ _ _ Hdone). lia.
    + intros _. exact (Hone _ _ _ Hdone).
    + intros _. now exists items, rest, datas, done.
    + intros entries [= <-] Hlt Hin.
      change (Connect :: Cursor ::
              map (insert_effect (insert_statement table_name (map fst items))) datas ++
              Commit :: done)
        with ([Connect; Cursor] ++
              map (insert_effect (insert_statement table_name (map fst items))) datas ++
              [Commit] ++ done) in Hlt.
      rewrite !executed_inserts_app, executed_inserts_map, Hdone' in Hlt.
      simpl in Hlt. rewrite app_nil_r, length_map in Hlt.
      rewrite <- (Forall2_length Hdatas) in Hlt. simpl in Hlt. lia.
    + intros Hno. exfalso. apply Hno. right. right. apply in_or_app. right. now left.
Qed.

Lemma load_commits_once_after_all_inserts_witness :
  let json_data := JList [JDict [("a", JInt 1)]; JDict []] in
  let r := insert_data_from_json reliable json_data "t" [] in
  List.length (executed_inserts (fst r)) < 2 /\
  ~ In Commit (fst r) /\
  Table.committed
    (Table.replay (fst r) {| Table.committed := [[JInt 7]]; Table.pending := [] |}) =
  [[JInt 7]].
Proof.
  intros json_data r.
  pose proof (load_commits_once_after_all_inserts reliable json_data "t"
                {| Table.committed := [[JInt 7]]; Table.pending := [] |}) as H.
  destruct H as [_ [_ [_ [Hfew Hkeep]]]].
  assert (Hlt : List.length (executed_inserts (fst r)) < 2) by (vm_compute; lia).
  pose proof (Hfew [JDict [("a", JInt 1)]; JDict []] eq_refl Hlt) as Hno.
  split; [exact Hlt | split; [exact Hno | exact (Hkeep Hno)]].
Defined.

(** ** C4 *)

(** C4: on the empty dataset [create_table_from_json] raises at the access
    to the first record ([IndexError]), whatever the driver would answer,
    and the trace is left as it was: no connection is opened and no drop,
    create or index statement is executed. *)
Theorem create_table_empty_dataset (db : driver) (table_name : string) (tr : trace) :
  create_table_from_json db (JList []) table_name tr = (tr, inl IndexError) /\
  fst (create_table_from_json db (JList []) table_name []) = [] /\
  (forall q vars,
     ~ In (Execute q vars) (fst (create_table_from_json db (JList []) table_name []))).
Proof.
  assert (Hrun : forall tr0,
             create_table_from_json db (JList []) table_name tr0 = (tr0, inl IndexError)).
  { intros tr0. unfold create_table_from_json. simpl getitem0.
    now rewrite bind_lift_inl. }
  split; [apply Hrun|].
  rewrite Hrun. split; [reflexivity|].
  intros q vars [].
Qed.

(** ** C7 *)

(** C7: for [[{"name": "X", "wkt": "POINT(1 2)"}]], on a driver that never
    raises, [create_table_from_json] drops the table, creates it with the
    columns id BIGSERIAL PRIMARY KEY, name TEXT and
    wkt GEOMETRY(GEOMETRY, 3857), creates a GIST index on wkt, commits,
    closes, and prints the message that reports spatial support. *)
Theorem spatial_scenario (table_name : string) :
  create_table_from_json reliable
    (JList [JDict [("name", JStr "X"); ("wkt", JStr "POINT(1 2)")]]) table_name [] =
  ([Connect; Cursor;
    Execute ("DROP TABLE IF EXISTS " +++ table_name +++ ";") None;
    Execute (nl +++ "    CREATE TABLE IF NOT EXISTS " +++ table_name +++ " (" +++ nl +++
             "        id BIGSERIAL PRIMARY KEY, name TEXT, wkt GEOMETRY(GEOMETRY, 3857)" +++
             nl +++ "    );" +++ nl +++ "    ") None;
    Execute (nl +++ "            CREATE INDEX IF NOT EXISTS idx_" +++ table_name +++
             "_wkt " +++ nl +++
             "            ON " +++ table_name +++ " USING GIST(wkt);" +++ nl +++
             "        ") None;
    Commit; CursorClose; ConnectionClose;
    Print ("Table " +++ table_name +++ " created successfully with spatial support " +++
           check_mark)],
   inr tt).
Proof.
  rewrite (create_table_reliable
             [("name", JStr "X"); ("wkt", JStr "POINT(1 2)")] [] table_name
             ["id BIGSERIAL PRIMARY KEY"; "name TEXT"; "wkt GEOMETRY(GEOMETRY, 3857)"]
             eq_refl).
  reflexivity.
Qed.

(** ** C6 *)




(** ** C2 *)

(** Without a geometry alias among the first record's keys, no run of
    [create_table_from_json] commits or closes anything, on any driver. *)
Lemma create_table_plain_never_commits (db : driver) (items : list (string * json))
    (rest : list json) (table_name : string) (c : effect) :
  existsb is_geometry_header (map fst items) = false ->
  In c (fst (create_table_from_json db (JList (JDict items :: rest)) table_name [])) ->
  c <> Commit /\ c <> CursorClose /\ c <> ConnectionClose.
Proof.
  intros Hplain.
  destruct (append_columns_spec items (map fst items) [surrogate_key] (lookup_key items))
    as [cols [Hcols _]].
  unfold create_table_from_json.
  simpl getitem0. rewrite bind_lift_inr.
  simpl keys. rewrite bind_lift_inr.
  change ([] ++ [surrogate_key]) with [surrogate_key].
  rewrite Hcols, bind_lift_inr.
  rewrite bind_perform. destruct (db _ Connect); [|intros []].
  rewrite bind_perform. destruct (db _ Cursor);
    [|simpl; intros Hin; repeat split; intros ->; intuition discriminate].
  rewrite bind_perform. destruct (db _ (Execute (drop_sql table_name) None));
    [|simpl; intros Hin; repeat split; intros ->; intuition discriminate].
  rewrite bind_perform. destruct (db _ (Execute _ None));
    [|simpl; intros Hin; repeat split; intros ->; intuition discriminate].
  rewrite bind_lift_inr, Hplain.
  simpl; intros Hin; repeat split; intros ->; intuition discriminate.
Qed.

(** C2 (the code does otherwise): for [[{"name": "X"}]], which has no
    geometry alias, the run on a driver that never raises drops and creates
    the table and prints the message, and ends there: the trace has no
    commit, no cursor close and no connection close. *)
Theorem non_spatial_branch_skips_commit :
  let r := create_table_from_json reliable (JList [JDict [("name", JStr "X")]])
             "GEO_TABLE" [] in
  r = ([Connect; Cursor;
        Execute (drop_sql "GEO_TABLE") None;
        Execute (create_sql "GEO_TABLE" ["id BIGSERIAL PRIMARY KEY"; "name TEXT"]) None;
        Print (plain_message "GEO_TABLE")],
       inr tt) /\
  ~ In Commit (fst r) /\ ~ In CursorClose (fst r) /\ ~ In ConnectionClose (fst r).
Proof.
  vm_compute. repeat split; intros H;
    repeat (destruct H as [H | H]; [discriminate H|]); exact H.
Qed.

(** * Further properties of the script *)

(** ** Datasets that are rejected before any connection *)

Lemma first_record_shape (json_data first_json_entry : json) (ks : list string) :
  getitem0 json_data = inr first_json_entry ->
  keys first_json_entry = inr ks ->
  exists items rest, json_data = JList (JDict items :: rest) /\ ks = map fst items.
Proof.
  intros Hfirst Hkeys.
  destruct first_json_entry; try discriminate Hkeys.
  injection Hkeys as <-.
  destruct json_data as [| | | |s|l|]; try discriminate Hfirst.
  - destruct s; discriminate Hfirst.
  - destruct l as [|x rest]; [discriminate Hfirst|].
    injection Hfirst as ->. now exists items, rest.
Qed.

Lemma first_record_rejected (json_data : json) :
  (forall items rest, json_data <> JList (JDict items :: rest)) ->
  exists e,
    In e [IndexError; KeyError (JInt 0); TypeError; AttributeError] /\
    (getitem0 json_data = inl e \/
     exists first_json_entry,
       getitem0 json_data = inr first_json_entry /\ keys first_json_entry = inl e).
Proof.
  intros Hshape.
  destruct (getitem0 json_data) as [e|first_json_entry] eqn:Hfirst.
  - exists e. split; [|now left].
    destruct json_data as [| | | |s|l|]; simpl in Hfirst.
    + injection Hfirst as <-. simpl; auto.
    + injection Hfirst as <-. simpl; auto.
    + injection Hfirst as <-. simpl; auto.
    + injection Hfirst as <-. simpl; auto.
    + destruct s; [injection Hfirst as <-; simpl; auto | discriminate Hfirst].
    + destruct l; [injection Hfirst as <-; simpl; auto | discriminate Hfirst].
    + injection Hfirst as <-. simpl; auto.
  - destruct (keys first_json_entry) as [e|ks] eqn:Hkeys.
    + exists e. split; [|right; now exists first_json_entry].
      destruct first_json_entry; simpl in Hkeys; try discriminate Hkeys;
        injection Hkeys as <-; simpl; auto.
    + destruct (first_record_shape _ _ _ Hfirst Hkeys) as [items [rest [Heq _]]].
      now destruct (Hshape items rest).
Qed.

(** X1: Unless the dataset is a list whose first element is an object, both
    functions raise the same exception (IndexError, KeyError, TypeError or
    AttributeError) before any call on the driver: nothing is connected,
    dropped, created or inserted. *)
Theorem malformed_dataset_no_driver_call (db db' : driver) (json_data : json)
    (table_name : string) (tr : trace) :
  (forall items rest, json_data <> JList (JDict items :: rest)) ->
  exists e,
    In e [IndexError; KeyError (JInt 0); TypeError; AttributeError] /\
    create_table_from_json db json_data table_name tr = (tr, inl e) /\
    insert_data_from_json db' json_data table_name tr = (tr, inl e).
Proof.
  intros Hshape.
  destruct (first_record_rejected json_data Hshape) as [e [Hin Hraise]].
  exists e. split; [exact Hin|].
  unfold create_table_from_json, insert_data_from_json.
  destruct Hraise as [Hfirst | [first_json_entry [Hfirst Hkeys]]].
  - rewrite Hfirst, !bind_lift_inl. now split.
  - rewrite Hfirst, !bind_lift_inr, Hkeys, !bind_lift_inl. now split.
Qed.

Lemma malformed_dataset_no_driver_call_witness :
  exists e,
    In e [IndexError; KeyError (JInt 0); TypeError; AttributeError] /\
    create_table_from_json reliable (JDict [("name", JStr "X")]) "t" [] = ([], inl e) /\
    insert_data_from_json reliable (JDict [("name", JStr "X")]) "t" [] = ([], inl e).
Proof.
  apply (malformed_dataset_no_driver_call reliable reliable
           (JDict [("name", JStr "X")]) "t" []).
  intros items rest. discriminate.
Defined.

(** ** create_table_from_json on any driver *)

Ltac refused H :=
  match goal with
  | |- exists done todo,
         _ /\ _ = done ++ todo /\ (?tr, inl (DatabaseError ?c)) = _ /\ _ =>
      exists tr; eexists;
      split; [reflexivity
             | split; [reflexivity
                      | split; [reflexivity
                               | intros ? ? [= <- _]; exact H]]]
  end.

(** The run stops at the first call the driver refuses; up to there it has
    made the calls of [create_plan], in order. *)
Lemma create_table_outcome (db : driver) (items : list (string * json))
    (rest : list json) (table_name : string) :
  exists cols done todo,
    append_columns (JDict items) (map fst items) [surrogate_key] = inr cols /\
    create_plan table_name cols (map fst items) = done ++ todo /\
    create_table_from_json db (JList (JDict items :: rest)) table_name [] =
      (done, match todo with
             | [] => inr tt
             | c :: _ => inl (DatabaseError c)
             end) /\
    (forall c todo', todo = c :: todo' -> db done c = false).
Proof.
  destruct (append_columns_spec items (map fst items) [surrogate_key] (lookup_key items))
    as [cols [Hcols _]].
  exists ([surrogate_key] ++ cols).
  unfold create_table_from_json, create_plan.
  simpl getitem0. rewrite bind_lift_inr.
  simpl keys. rewrite bind_lift_inr.
  change ([] ++ [surrogate_key]) with [surrogate_key].
  rewrite Hcols, bind_lift_inr.
  set (plan_tail := match find is_geometry_header (map fst items) with
                    | Some g => _ | None => _ end).
  rewrite bind_perform. destruct (db [] Connect) eqn:H1; [|refused H1].
  rewrite bind_perform. destruct (db _ Cursor) eqn:H2; [|refused H2].
  rewrite bind_perform.
  destruct (db _ (Execute (drop_sql table_name) None)) eqn:H3; [|refused H3].
  rewrite bind_perform.
  destruct (db _ (Execute (create_sql table_name ([surrogate_key] ++ cols)) None)) eqn:H4;
    [|refused H4].
  rewrite bind_lift_inr. subst plan_tail.
  unfold next_geometry_header. rewrite existsb_find.
  destruct (find is_geometry_header (map fst items)) as [g|] eqn:Hfind.
  - cbv iota. rewrite bind_lift_inr, Hfind, bind_lift_inr.
    rewrite bind_perform.
    destruct (db _ (Execute (index_sql table_name g) None)) eqn:H5; [|refused H5].
    rewrite bind_perform. destruct (db _ Commit) eqn:H6; [|refused H6].
    rewrite bind_perform. destruct (db _ CursorClose) eqn:H7; [|refused H7].
    rewrite bind_perform. destruct (db _ ConnectionClose) eqn:H8; [|refused H8].
    eexists. exists [].
    split; [reflexivity | split; [now rewrite app_nil_r | split; [reflexivity|]]].
    intros c todo' [=].
  - cbv iota. eexists. exists [].
    split; [reflexivity | split; [now rewrite app_nil_r | split; [reflexivity|]]].
    intros c todo' [=].
Qed.

Lemma statements_app (tr tr' : trace) :
  statements (tr ++ tr') = statements tr ++ statements tr'.
Proof.
  induction tr as [|c tr IH]; simpl; [reflexivity|].
  destruct c; simpl; now rewrite IH.
Qed.

(** X2: On any driver, the statements [create_table_from_json] executes are, in
    order, a prefix of: drop the table, create it, index the first geometry
    alias (when there is one).  So the create statement is never executed
    without the drop before it.  The run returns normally exactly when it
    made every call of [create_plan]. *)
Theorem create_table_drops_before_creating (db : driver) (items : list (string * json))
    (rest : list json) (table_name : string) :
  let r := create_table_from_json db (JList (JDict items :: rest)) table_name [] in
  exists cols later,
    append_columns (JDict items) (map fst items) [surrogate_key] = inr cols /\
    drop_sql table_name :: create_sql table_name cols ::
      match find is_geometry_header (map fst items) with
      | Some g => [index_sql table_name g]
      | None => []
      end = statements (fst r) ++ later /\
    (snd r = inr tt <-> fst r = create_plan table_name cols (map fst items)).
Proof.
  intros r.
  destruct (create_table_outcome db items rest table_name)
    as [cols [done [todo [Hcols [Hplan [Hrun _]]]]]].
  fold r in Hrun. exists cols, (statements todo).
  split; [exact Hcols|]. rewrite Hrun. cbn [fst snd]. split.
  - rewrite <- statements_app, <- Hplan. unfold create_plan.
    destruct (find is_geometry_header (map fst items)); reflexivity.
  - rewrite Hplan. split.
    + destruct todo; [now rewrite app_nil_r | discriminate].
    + intros Heq. rewrite <- (app_nil_r done) in Heq at 1.
      apply app_inv_head in Heq. now subst todo.
Qed.

Lemma in_create_plan_prefix (table_name : string) (cols ks : list string)
    (plan_done plan_todo : trace) :
  create_plan table_name cols ks = plan_done ++ plan_todo ->
  In Commit plan_done ->
  exists g tail,
    find is_geometry_header ks = Some g /\
    plan_done =
      Connect :: Cursor :: Execute (drop_sql table_name) None ::
      Execute (create_sql table_name cols) None ::
      Execute (index_sql table_name g) None :: Commit :: tail /\
    (tail = [] \/ tail = [CursorClose] \/ tail = [CursorClose; ConnectionClose] \/
     tail = [CursorClose; ConnectionClose; Print (spatial_message table_name)]).
Proof.
  unfold create_plan.
  destruct (find is_geometry_header ks) as [g|]; simpl; intros Hplan Hin.
  - exists g.
    destruct plan_done as [|c1 [|c2 [|c3 [|c4 [|c5 [|c6 tail]]]]]];
      simpl in Hplan; try (injection Hplan; intros; subst);
      try solve [simpl in Hin; intuition discriminate].
    match goal with
    | Heq : _ = tail ++ plan_todo |- _ => rename Heq into Htail
    end.
    exists tail. split; [reflexivity | split; [reflexivity|]].
    destruct tail as [|d1 [|d2 [|d3 [|d4 tail]]]]; simpl in Htail.
    + now left.
    + injection Htail as <- _. right. now left.
    + injection Htail as <- <- _. right. right. now left.
    + injection Htail as <- <- <- _. right. right. now right.
    + destruct plan_todo; discriminate Htail.
  - exfalso.
    assert (Hall : In Commit (plan_done ++ plan_todo))
      by (apply in_or_app; now left).
    rewrite <- Hplan in Hall. simpl in Hall. intuition discriminate.
Qed.

(** X3: On any driver, [create_table_from_json] commits only on the spatial
    path, and only after the drop, the create and the index on the first
    geometry alias have all been executed, in that order. *)
Theorem create_table_commits_after_index (db : driver) (items : list (string * json))
    (rest : list json) (table_name : string) :
  In Commit (fst (create_table_from_json db (JList (JDict items :: rest)) table_name [])) ->
  exists cols g tail,
    find is_geometry_header (map fst items) = Some g /\
    fst (create_table_from_json db (JList (JDict items :: rest)) table_name []) =
      Connect :: Cursor :: Execute (drop_sql table_name) None ::
      Execute (create_sql table_name cols) None ::
      Execute (index_sql table_name g) None :: Commit :: tail /\
    ~ In Commit tail.
Proof.
  destruct (create_table_outcome db items rest table_name)
    as [cols [done [todo [_ [Hplan [Hrun _]]]]]].
  rewrite Hrun. cbn [fst]. intros Hin.
  destruct (in_create_plan_prefix table_name cols (map fst items) done todo
              Hplan Hin) as [g [tail [Hfind [Hdone Htail]]]].
  exists cols, g, tail. split; [exact Hfind | split; [exact Hdone|]].
  destruct Htail as [-> | [-> | [-> | ->]]]; simpl; intuition discriminate.
Qed.

Lemma create_table_commits_after_index_witness :
  exists cols g tail,
    find is_geometry_header ["name"; "wkt"] = Some g /\
    fst (create_table_from_json reliable
           (JList [JDict [("name", JStr "X"); ("wkt", JStr "POINT(1 2)")]]) "t" []) =
      Connect :: Cursor :: Execute (drop_sql "t") None ::
      Execute (create_sql "t" cols) None ::
      Execute (index_sql "t" g) None :: Commit :: tail /\
    ~ In Commit tail.
Proof.
  apply (create_table_commits_after_index reliable
           [("name", JStr "X"); ("wkt", JStr "POINT(1 2)")] [] "t").
  vm_compute. do 5 right. left. reflexivity.
Defined.

(** X4: The values of the first record reach the table only through the type
    decided for them: two datasets whose first records have the same keys,
    with values that get the same type key by key, make
    [create_table_from_json] do exactly the same, whatever else they hold. *)
Theorem create_table_sees_types_only (db : driver) (items items' : list (string * json))
    (rest rest' : list json) (table_name : string) (tr : trace) :
  map fst items = map fst items' ->
  (forall k v v',
     lookup k items = Some v -> lookup k items' = Some v' ->
     decide_sql_type k v = decide_sql_type k v') ->
  create_table_from_json db (JList (JDict items :: rest)) table_name tr =
  create_table_from_json db (JList (JDict items' :: rest')) table_name tr.
Proof.
  intros Hkeys Htypes.
  destruct (append_columns_spec items (map fst items) [surrogate_key] (lookup_key items))
    as [cols [Hcols Hall]].
  destruct (append_columns_spec items' (map fst items') [surrogate_key] (lookup_key items'))
    as [cols' [Hcols' Hall']].
  assert (Hsame : cols = cols').
  { rewrite <- Hkeys in Hall'. clear Hcols Hcols' Hkeys.
    revert cols' Hall'.
    induction Hall as [|k c ks cs [v [Hv ->]] _ IH]; intros cols' Hall';
      inversion Hall' as [|k' c' ks' cs' [v' [Hv' ->]] Hrest]; subst.
    - reflexivity.
    - rewrite (Htypes k v v' Hv Hv'). f_equal. now apply IH. }
  subst cols'.
  unfold create_table_from_json.
  simpl getitem0. rewrite !bind_lift_inr.
  simpl keys. rewrite !bind_lift_inr.
  change ([] ++ [surrogate_key]) with [surrogate_key].
  rewrite Hcols, Hcols', Hkeys. reflexivity.
Qed.

Lemma create_table_sees_types_only_witness :
  create_table_from_json reliable
    (JList [JDict [("name", JStr "X"); ("count", JInt 3)]; JNone]) "t" [] =
  create_table_from_json reliable
    (JList [JDict [("name", JNone); ("count", JInt 99)]]) "t" [].
Proof.
  apply (create_table_sees_types_only reliable
           [("name", JStr "X"); ("count", JInt 3)]
           [("name", JNone); ("count", JInt 99)] [JNone] [] "t" []).
  - reflexivity.
  - intros k v v'. simpl.
    destruct (String.eqb k "name").
    + now intros [= <-] [= <-].
    + destruct (String.eqb k "count").
      * now intros [= <-] [= <-].
      * discriminate.
Defined.

(** ** Building a record's tuple *)

(** X5: A record that lacks keys of the first record raises [KeyError] for the
    first missing one, in the first record's key order. *)
Theorem tuple_of_first_missing_key (its : list (string * json))
    (found missing : list string) (k : string) :
  (forall k', In k' found -> exists v, lookup k' its = Some v) ->
  lookup k its = None ->
  tuple_of (JDict its) (found ++ k :: missing) = inl (KeyError (JStr k)).
Proof.
  intros Hfound Hk.
  induction found as [|k' found IH]; simpl.
  - now rewrite Hk.
  - destruct (Hfound k' (or_introl eq_refl)) as [v Hv]. rewrite Hv.
    rewrite IH; [reflexivity|].
    intros k'' Hin. apply Hfound. now right.
Qed.

Lemma tuple_of_first_missing_key_witness :
  tuple_of (JDict [("c", JInt 3); ("a", JInt 1)]) ["a"; "b"; "c"; "d"] =
  inl (KeyError (JStr "b")).
Proof.
  apply (tuple_of_first_missing_key [("c", JInt 3); ("a", JInt 1)] ["a"] ["c"; "d"] "b").
  - intros k' [<- | []]. now exists (JInt 1).
  - reflexivity.
Defined.

Lemma tuple_of_length (entry : json) (headers : list string) (data : list json) :
  tuple_of entry headers = inr data -> List.length data = List.length headers.
Proof.
  intros Htuple. symmetry. exact (Forall2_length (tuple_of_getitem _ _ _ Htuple)).
Qed.

(** ** insert_data_from_json: where a load stops *)

Lemma insert_entries_reliable_abort (insert : string) (headers : list string)
    (good after : list json) (bad : json) (datas : list (list json)) (e : exn)
    (tr : trace) :
  Forall2 (fun entry data => tuple_of entry headers = inr data) good datas ->
  tuple_of bad headers = inl e ->
  insert_entries reliable insert headers (good ++ bad :: after) tr =
  (tr ++ map (insert_effect insert) datas, inl e).
Proof.
  intros Hgood Hbad. revert tr.
  induction Hgood as [|entry data good datas Htuple _ IH]; intros tr; simpl.
  - rewrite Hbad, bind_lift_inl. now rewrite app_nil_r.
  - rewrite Htuple, bind_lift_inr, bind_perform_reliable, IH.
    now rewrite <- app_assoc.
Qed.

(** X7: On a driver that never raises, a load stops at the first record whose
    tuple cannot be built: the records before it have been inserted, in
    order, none after it is touched, the exception of that record comes out,
    and with no commit the table keeps the rows it had. *)
Theorem insert_aborts_at_first_bad_record (items : list (string * json))
    (good after : list json) (bad : json) (datas : list (list json)) (e : exn)
    (table_name : string) (rows : list (list json)) :
  let ks := map fst items in
  let r := insert_data_from_json reliable
             (JList (JDict items :: good ++ bad :: after)) table_name [] in
  Forall2 (fun entry data => tuple_of entry ks = inr data) (JDict items :: good) datas ->
  tuple_of bad ks = inl e ->
  r = (Connect :: Cursor :: map (insert_effect (insert_statement table_name ks)) datas,
       inl e) /\
  List.length (executed_inserts (fst r)) = S (List.length good) /\
  Table.committed
    (Table.replay (fst r) {| Table.committed := rows; Table.pending := [] |}) = rows.
Proof.
  intros ks r Hgood Hbad.
  assert (Hrun : r = (Connect :: Cursor ::
                      map (insert_effect (insert_statement table_name ks)) datas, inl e)).
  { unfold r, insert_data_from_json.
    simpl getitem0. rewrite bind_lift_inr.
    simpl keys. rewrite bind_lift_inr.
    rewrite append_placeholders_spec. simpl app.
    rewrite !bind_perform_reliable.
    simpl iter. rewrite bind_lift_inr.
    fold ks. fold (insert_statement table_name ks).
    unfold bind at 1.
    change (JDict items :: good ++ bad :: after)
      with ((JDict items :: good) ++ bad :: after).
    rewrite (insert_entries_reliable_abort _ ks _ after bad datas e _ Hgood Hbad).
    reflexivity. }
  rewrite Hrun. cbn [fst]. split; [reflexivity | split].
  - change (Connect :: Cursor :: map (insert_effect (insert_statement table_name ks)) datas)
      with ([Connect; Cursor] ++ map (insert_effect (insert_statement table_name ks)) datas).
    rewrite executed_inserts_app, executed_inserts_map. simpl.
    rewrite length_map, <- (Forall2_length Hgood). reflexivity.
  - apply (replay_without_commit _ {| Table.committed := rows; Table.pending := [] |}).
    intros [Hin | [Hin | Hin]]; try discriminate Hin.
    apply in_map_iff in Hin. destruct Hin as [data [Hin _]]. discriminate Hin.
Qed.

Lemma insert_aborts_at_first_bad_record_witness :
  let r := insert_data_from_json reliable
             (JList [JDict [("a", JInt 1)]; JDict [("a", JInt 2)]; JList []; JDict [("a", JInt 4)]])
             "t" [] in
  r = (Connect :: Cursor ::
       map (insert_effect (insert_statement "t" ["a"])) [[JInt 1]; [JInt 2]],
       inl TypeError) /\
  List.length (executed_inserts (fst r)) = 2 /\
  Table.committed
    (Table.replay (fst r) {| Table.committed := [[JInt 0]]; Table.pending := [] |}) =
  [[JInt 0]].
Proof.
  apply (insert_aborts_at_first_bad_record [("a", JInt 1)] [JDict [("a", JInt 2)]]
           [JDict [("a", JInt 4)]] (JList []) [[JInt 1]; [JInt 2]] TypeError "t"
           [[JInt 0]]).
  - repeat constructor.
  - reflexivity.
Defined.

(** X8: When the first record is the empty object, the table gets the surrogate
    key as its only column, and the load (on a driver that never raises)
    executes one insert without columns and without parameters for every
    element of the dataset, object or not, and commits. *)
Theorem empty_first_record (rest : list json) (table_name : string) :
  create_table_from_json reliable (JList (JDict [] :: rest)) table_name [] =
    ([Connect; Cursor;
      Execute (drop_sql table_name) None;
      Execute (create_sql table_name ["id BIGSERIAL PRIMARY KEY"]) None;
      Print (plain_message table_name)], inr tt) /\
  insert_data_from_json reliable (JList (JDict [] :: rest)) table_name [] =
    (Connect :: Cursor ::
     map (fun _ => Execute (insert_sql table_name [] []) (Some [])) (JDict [] :: rest) ++
     Commit :: closing table_name, inr tt).
Proof.
  split.
  - now rewrite (create_table_reliable [] rest table_name [surrogate_key] eq_refl).
  - unfold insert_data_from_json.
    simpl getitem0. rewrite bind_lift_inr.
    simpl keys. rewrite bind_lift_inr.
    rewrite append_placeholders_spec. simpl app. simpl map.
    rewrite !bind_perform_reliable.
    simpl iter. rewrite bind_lift_inr.
    unfold bind at 1.
    rewrite (insert_entries_reliable _ [] (JDict [] :: rest)
               (map (fun _ => []) (JDict [] :: rest))).
    + rewrite !bind_perform_reliable. unfold print.
      rewrite map_map. simpl app. rewrite <- !app_assoc. reflexivity.
    + generalize (JDict [] :: rest). intros entries.
      induction entries; simpl; constructor; [reflexivity | assumption].
Qed.

(** X9: On any driver and any dataset, every insert that is executed binds
    exactly one parameter per column of the statement and per placeholder:
    as many as the first record has keys. *)
Theorem insert_binds_one_parameter_per_column (db : driver) (json_data : json)
    (table_name : string) (q : string) (vars : option (list json)) :
  In (Execute q vars) (fst (insert_data_from_json db json_data table_name [])) ->
  exists headers placeholders data,
    append_placeholders
      (match getitem0 json_data with
       | inr (JDict items) => map fst items
       | _ => []
       end) [] [] = (placeholders, headers) /\
    q = insert_sql table_name headers placeholders /\
    vars = Some data /\
    List.length data = List.length headers /\
    List.length data = List.length placeholders.
Proof.
  intros Hin.
  pose proof (insert_data_outcome db json_data table_name) as Hout.
  destruct (insert_data_from_json db json_data table_name []) as [tr res].
  destruct (load_outcome_execute _ _ _ _ _ _ Hout Hin)
    as [items [rest [-> [Hq [entry [data [_ [Htuple Hvars]]]]]]]].
  exists (map fst items), (map placeholder_for (map fst items)), data.
  simpl getitem0. cbv iota. rewrite append_placeholders_spec.
  split; [reflexivity | split; [exact Hq | split; [exact Hvars|]]].
  split; [|rewrite (length_map placeholder_for)]; exact (tuple_of_length _ _ _ Htuple).
Qed.

Lemma insert_binds_one_parameter_per_column_witness :
  exists headers placeholders data,
    append_placeholders ["name"; "wkt"] [] [] = (placeholders, headers) /\
    insert_statement "t" ["name"; "wkt"] = insert_sql "t" headers placeholders /\
    Some [JStr "X"; JStr "POINT(1 2)"] = Some data /\
    List.length data = List.length headers /\
    List.length data = List.length placeholders.
Proof.
  apply (insert_binds_one_parameter_per_column reliable
           (JList [JDict [("name", JStr "X"); ("wkt", JStr "POINT(1 2)")]]) "t"
           (insert_statement "t" ["name"; "wkt"]) (Some [JStr "X"; JStr "POINT(1 2)"])).
  vm_compute. right. right. left. reflexivity.
Defined.

Lemma closing_printed (table_name : string) (done todo : trace) (line : string) :
  closing table_name = done ++ todo ->
  In (Print line) done ->
  done = closing table_name /\ todo = [] /\ line = filled_message table_name.
Proof.
  unfold closing.
  destruct done as [|c1 [|c2 [|c3 [|c4 done]]]]; simpl; intros Heq Hin.
  - destruct Hin.
  - injection Heq as <- _. intuition discriminate.
  - injection Heq as <- <- _. intuition discriminate.
  - injection Heq as <- <- <- <-.
    destruct Hin as [Hin | [Hin | [Hin | []]]]; try discriminate Hin.
    injection Hin as <-. now repeat split.
  - destruct todo; discriminate Heq.
Qed.

(** X10: On any driver, the load prints its message only at the very end of a
    complete run: every record's insert has been executed, the commit and
    both closes have returned, and the function returns normally. *)
Theorem insert_message_means_committed (db : driver) (json_data : json)
    (table_name : string) (line : string) :
  let r := insert_data_from_json db json_data table_name [] in
  In (Print line) (fst r) ->
  line = filled_message table_name /\
  snd r = inr tt /\
  exists items rest datas,
    json_data = JList (JDict items :: rest) /\
    Forall2 (fun entry data => tuple_of entry (map fst items) = inr data)
      (JDict items :: rest) datas /\
    fst r = Connect :: Cursor ::
            map (insert_effect (insert_statement table_name (map fst items))) datas ++
            [Commit; CursorClose; ConnectionClose; Print line].
Proof.
  intros r.
  pose proof (insert_data_outcome db json_data table_name) as Hout.
  fold r in Hout. destruct r as [tr res]. cbn [fst snd]. intros Hin.
  inversion Hout as [tr0 e Htr | items rest datas e Heq Hdatas
                     | items rest datas done todo res0 Heq Hdatas Hclosing Hres];
    subst.
  - destruct Htr as [-> | ->]; simpl in Hin; intuition discriminate.
  - destruct Hin as [Hin | [Hin | Hin]]; try discriminate Hin.
    apply in_map_iff in Hin. destruct Hin as [data [Hin _]]. discriminate Hin.
  - destruct Hin as [Hin | [Hin | Hin]]; try discriminate Hin.
    apply in_app_or in Hin. destruct Hin as [Hin | [Hin | Hin]].
    + apply in_map_iff in Hin. destruct Hin as [data [Hin _]]. discriminate Hin.
    + discriminate Hin.
    + destruct (closing_printed _ _ _ _ Hclosing Hin) as [-> [-> ->]].
      split; [reflexivity | split; [now apply Hres|]].
      now exists items, rest, datas.
Qed.

Lemma insert_message_means_committed_witness :
  filled_message "t" = filled_message "t" /\
  snd (insert_data_from_json reliable (JList [JDict [("a", JInt 1)]]) "t" []) = inr tt /\
  exists items rest datas,
    JList [JDict [("a", JInt 1)]] = JList (JDict items :: rest) /\
    Forall2 (fun entry data => tuple_of entry (map fst items) = inr data)
      (JDict items :: rest) datas /\
    fst (insert_data_from_json reliable (JList [JDict [("a", JInt 1)]]) "t" []) =
      Connect :: Cursor ::
      map (insert_effect (insert_statement "t" (map fst items))) datas ++
      [Commit; CursorClose; ConnectionClose; Print (filled_message "t")].
Proof.
  apply (insert_message_means_committed reliable (JList [JDict [("a", JInt 1)]]) "t"
           (filled_message "t")).
  vm_compute. do 6 right. left. reflexivity.
Defined.

(** ** Starting a run after earlier calls *)

Lemma framed_lift {A : Type} (tr0 : trace) (r : exn + A) : framed tr0 (lift r) (lift r).
Proof. intros tr. now destruct r. Qed.

Lemma framed_ret {A : Type} (tr0 : trace) (a : A) : framed tr0 (ret a) (ret a).
Proof. intros tr. reflexivity. Qed.

Lemma framed_print (tr0 : trace) (line : string) : framed tr0 (print line) (print line).
Proof. intros tr. unfold print. simpl. now rewrite app_assoc. Qed.

Lemma framed_perform (tr0 : trace) (db : driver) (c : effect) :
  framed tr0 (perform db c) (perform (shift db tr0) c).
Proof.
  intros tr. unfold perform, shift.
  destruct (db (tr0 ++ tr) c); simpl; [now rewrite app_assoc | reflexivity].
Qed.

Lemma framed_bind {A B : Type} (tr0 : trace) (m m' : run A) (k k' : A -> run B) :
  framed tr0 m m' -> (forall a, framed tr0 (k a) (k' a)) ->
  framed tr0 (bind m k) (bind m' k').
Proof.
  intros Hm Hk tr. unfold bind. rewrite (Hm tr).
  destruct (m' tr) as [tr' [e|a]]; simpl; [reflexivity | apply Hk].
Qed.

Lemma framed_insert_entries (tr0 : trace) (db : driver) (insert : string)
    (headers : list string) (entries : list json) :
  framed tr0 (insert_entries db insert headers entries)
    (insert_entries (shift db tr0) insert headers entries).
Proof.
  induction entries as [|entry entries IH]; simpl.
  - apply framed_ret.
  - apply framed_bind; [apply framed_lift|]. intros data.
    apply framed_bind; [apply framed_perform|]. intros _. exact IH.
Qed.

(** A load that starts after the calls [tr0] does what a load from the
    empty trace does on the driver shifted by [tr0]. *)
Lemma framed_insert_data (tr0 : trace) (db : driver) (json_data : json)
    (table_name : string) :
  framed tr0 (insert_data_from_json db json_data table_name)
    (insert_data_from_json (shift db tr0) json_data table_name).
Proof.
  unfold insert_data_from_json.
  apply framed_bind; [apply framed_lift|]. intros first_json_entry.
  apply framed_bind; [apply framed_lift|]. intros ks.
  destruct (append_placeholders ks [] []) as [placeholders headers].
  apply framed_bind; [apply framed_perform|]. intros _.
  apply framed_bind; [apply framed_perform|]. intros _.
  apply framed_bind; [apply framed_lift|]. intros entries.
  apply framed_bind; [apply framed_insert_entries|]. intros _.
  apply framed_bind; [apply framed_perform|]. intros _.
  apply framed_bind; [apply framed_perform|]. intros _.
  apply framed_bind; [apply framed_perform|]. intros _.
  apply framed_print.
Qed.

(** ** The script as a whole *)

Lemma create_table_no_inserts (db : driver) (json_data : json) (table_name : string) :
  executed_inserts (fst (create_table_from_json db json_data table_name [])) = [].
Proof.
  destruct (getitem0 json_data) as [e|first_json_entry] eqn:Hfirst.
  { unfold create_table_from_json. now rewrite Hfirst, bind_lift_inl. }
  destruct (keys first_json_entry) as [e|ks] eqn:Hkeys.
  { unfold create_table_from_json.
    now rewrite Hfirst, bind_lift_inr, Hkeys, bind_lift_inl. }
  destruct (first_record_shape _ _ _ Hfirst Hkeys) as [items [rest [-> _]]].
  destruct (create_table_outcome db items rest table_name)
    as [cols [done [todo [_ [Hplan [Hrun _]]]]]].
  rewrite Hrun. cbn [fst].
  assert (Hnone : executed_inserts (done ++ todo) = []).
  { rewrite <- Hplan. unfold create_plan.
    now destruct (find is_geometry_header (map fst items)). }
  rewrite executed_inserts_app in Hnone.
  now apply app_eq_nil in Hnone.
Qed.

(** X11: The script builds before it loads, on any driver and whatever the two
    readings of the file hold: its trace is the trace of
    [create_table_from_json] followed by that of [insert_data_from_json];
    the first part executes no parameterized insert and the second no
    statement without parameters.  When the build raises, the load is not
    started and the script ends with that exception. *)
Theorem main_builds_then_loads (db : driver) (first_read second_read : json) :
  let build := create_table_from_json db first_read "GEO_TABLE" [] in
  let load :=
    insert_data_from_json (shift db (fst build)) second_read "GEO_TABLE" [] in
  executed_inserts (fst build) = [] /\
  (forall q, ~ In (Execute q None) (fst load)) /\
  main db first_read second_read [] =
    match snd build with
    | inl e => (fst build, inl e)
    | inr _ => (fst build ++ fst load, snd load)
    end.
Proof.
  intros build load.
  split; [apply create_table_no_inserts | split].
  - intros q Hin.
    pose proof (insert_data_outcome (shift db (fst build)) second_read "GEO_TABLE") as Hout.
    fold load in Hout. destruct load as [tr res].
    destruct (load_outcome_execute _ _ _ _ _ _ Hout Hin)
      as [items [rest [_ [_ [entry [data [_ [_ Hvars]]]]]]]].
    discriminate Hvars.
  - unfold main, bind. fold build.
    destruct build as [tr1 [e|[]]]; cbn [fst snd] in *; [reflexivity|].
    pose proof (framed_insert_data tr1 db second_read "GEO_TABLE" []) as Hframe.
    rewrite app_nil_r in Hframe. exact Hframe.
Qed.

Lemma insert_data_reliable (items : list (string * json)) (rest : list json)
    (datas : list (list json)) (table_name : string) (tr : trace) :
  Forall2 (fun entry data => tuple_of entry (map fst items) = inr data)
    (JDict items :: rest) datas ->
  insert_data_from_json reliable (JList (JDict items :: rest)) table_name tr =
  (tr ++ Connect :: Cursor ::
   map (insert_effect (insert_statement table_name (map fst items))) datas ++
   Commit :: closing table_name, inr tt).
Proof.
  intros Hdatas. unfold insert_data_from_json.
  simpl getitem0. rewrite bind_lift_inr.
  simpl keys. rewrite bind_lift_inr.
  rewrite append_placeholders_spec. simpl app.
  rewrite !bind_perform_reliable.
  simpl iter. rewrite bind_lift_inr.
  fold (insert_statement table_name (map fst items)).
  unfold bind at 1.
  rewrite (insert_entries_reliable _ _ _ datas _ Hdatas).
  rewrite !bind_perform_reliable. unfold print, closing.
  rewrite <- !app_assoc. reflexivity.
Qed.

(** X12: The script on a spatial dataset, on a driver that never raises: when
    the first record has a geometry alias and every record is an object
    with every key of the first one, the script makes every call of the
    create plan, then connects again, inserts every record in order,
    commits, closes and returns normally; both connections are closed. *)
Theorem main_spatial_run (items : list (string * json)) (rest : list json) (g : string) :
  let ks := map fst items in
  let json_data := JList (JDict items :: rest) in
  find is_geometry_header ks = Some g ->
  Forall (fun entry => exists its, entry = JDict its /\ incl ks (map fst its)) rest ->
  exists cols datas,
    Forall2 (fun entry data => Forall2 (fun k v => getitem entry k = inr v) ks data)
      (JDict items :: rest) datas /\
    main reliable json_data json_data [] =
      ([Connect; Cursor;
        Execute (drop_sql "GEO_TABLE") None;
        Execute (create_sql "GEO_TABLE" cols) None;
        Execute (index_sql "GEO_TABLE" g) None;
        Commit; CursorClose; ConnectionClose; Print (spatial_message "GEO_TABLE")] ++
       Connect :: Cursor ::
       map (insert_effect (insert_statement "GEO_TABLE" ks)) datas ++
       [Commit; CursorClose; ConnectionClose; Print (filled_message "GEO_TABLE")],
       inr tt).
Proof.
  intros ks json_data Hfind Hrest.
  destruct (append_columns_spec items ks [surrogate_key] (lookup_key items))
    as [cols [Hcols _]].
  destruct (tuples_of_complete_records ks (JDict items :: rest)) as [datas Hdatas].
  { constructor; [|exact Hrest]. exists items. split; [reflexivity | apply incl_refl]. }
  exists ([surrogate_key] ++ cols), datas. split.
  - clear -Hdatas. induction Hdatas as [|entry data es ds Htuple _ IH]; constructor.
    + now apply tuple_of_getitem.
    + exact IH.
  - unfold main, bind, json_data.
    rewrite (create_table_reliable items rest "GEO_TABLE" _ Hcols).
    fold ks. rewrite Hfind.
    now rewrite (insert_data_reliable items rest datas "GEO_TABLE" _ Hdatas).
Qed.

Lemma main_spatial_run_witness :
  let items := [("name", JStr "X"); ("wkt", JStr "POINT(1 2)")] in
  let later := JDict [("wkt", JStr "POINT(3 4)"); ("name", JStr "Y")] in
  exists cols datas,
    Forall2 (fun entry data =>
               Forall2 (fun k v => getitem entry k = inr v) ["name"; "wkt"] data)
      [JDict items; later] datas /\
    main reliable (JList [JDict items; later]) (JList [JDict items; later]) [] =
      ([Connect; Cursor;
        Execute (drop_sql "GEO_TABLE") None;
        Execute (create_sql "GEO_TABLE" cols) None;
        Execute (index_sql "GEO_TABLE" "wkt") None;
        Commit; CursorClose; ConnectionClose; Print (spatial_message "GEO_TABLE")] ++
       Connect :: Cursor ::
       map (insert_effect (insert_statement "GEO_TABLE" ["name"; "wkt"])) datas ++
       [Commit; CursorClose; ConnectionClose; Print (filled_message "GEO_TABLE")],
       inr tt).
Proof.
  intros items later.
  apply (main_spatial_run items [later] "wkt").
  - reflexivity.
  - constructor; [|constructor].
    exists [("wkt", JStr "POINT(3 4)"); ("name", JStr "Y")].
    split; [reflexivity|].
    intros k Hk. simpl in Hk. simpl.
    destruct Hk as [<- | [<- | []]]; auto.
Defined.

(** X6: A record's tuple depends only on what the record holds under the first
    record's keys: other keys, and the order of the keys in the record, do
    not matter. *)
Theorem tuple_of_ignores_other_keys (its its' : list (string * json))
    (headers : list string) :
  (forall k, In k headers -> lookup k its = lookup k its') ->
  tuple_of (JDict its) headers = tuple_of (JDict its') headers.
Proof.
  induction headers as [|k headers IH]; intros Hsame; simpl; [reflexivity|].
  rewrite (Hsame k (or_introl eq_refl)).
  rewrite IH; [reflexivity|].
  intros k' Hin. apply Hsame. now right.
Qed.

Lemma tuple_of_ignores_other_keys_witness :
  tuple_of (JDict [("a", JInt 1); ("b", JInt 2)]) ["a"; "b"] =
  tuple_of (JDict [("extra", JNone); ("b", JInt 2); ("a", JInt 1)]) ["a"; "b"].
Proof.
  apply (tuple_of_ignores_other_keys [("a", JInt 1); ("b", JInt 2)]
           [("extra", JNone); ("b", JInt 2); ("a", JInt 1)] ["a"; "b"]).
  intros k [<- | [<- | []]]; reflexivity.
Defined.
